(** * EAST text-box decoding and ROI extraction: a shallow embedding

    This development embeds the geometry-decoding, candidate-collection,
    suppression and ROI-extraction stage of [src/services/tesseractUtils.py]
    and the part of [src/main.py] that drives it, and proves properties of
    the embedded functions.

    Modelling conventions.
    - Python [int] values are [Z].  NumPy/Python floating-point values are
      modelled by the rational numbers they denote ([Q]); NaN and the
      infinities are not modelled.  [int(f)] is truncation toward zero.
      The detection stage is embedded twice: on exact rationals, and in
      module [Machine] with the rounding operations of the machine as
      parameters, of which the exact ones are an instance; module [Float]
      gives the correctly rounded binary32 and binary64 operations.
    - A Python exception is a value [Raise e] of the [result] type; the
      statements of a function body are sequenced with [bind].
    - Arrays are nested lists; indexing and slicing follow Python's rules
      (negative indices count from the end, an index out of range raises
      [IndexError], a slice never raises).
    - Calls into OpenCV and NumPy's trigonometric functions are parameters of
      the section that embeds the code.  imutils' [non_max_suppression] is
      modelled from the specification (module [NMS]). *)

From Stdlib Require Import String.
From Stdlib Require Import ZArith QArith Qround List Bool Lia.
From Equations Require Import Equations.
Import ListNotations.

Local Open Scope Z_scope.

(** ** The Python fragment the code relies on *)

Module Py.

Inductive exn : Type :=
| IndexError          (* sequence index out of range *)
| UnboundLocalError   (* local variable read before any assignment *)
| Cv2Error.           (* cv2.error raised by an OpenCV call *)

Inductive result (A : Type) : Type :=
| Ok (a : A)
| Raise (e : exn).
Arguments Ok {A} a.
Arguments Raise {A} e.

Definition bind {A B} (m : result A) (k : A -> result B) : result B :=
  match m with
  | Ok a => k a
  | Raise e => Raise e
  end.

(** [for v in xs: body], the loop state threaded explicitly; an exception
    raised by the body leaves the loop. *)
Fixpoint for_each {S A} (body : S -> A -> result S) (xs : list A) (s : S)
  : result S :=
  match xs with
  | [] => Ok s
  | v :: rest => bind (body s v) (for_each body rest)
  end.

(** [range(0, n)] *)
Definition range (n : Z) : list Z := map Z.of_nat (seq 0 (Z.to_nat n)).

(** [a < b] on floating-point values. *)
Definition float_lt (a b : Q) : bool := negb (Qle_bool b a).

(** [int(q)]: truncation toward zero. *)
Definition int (q : Q) : Z :=
  if Qle_bool 0 q then Qfloor q else Qceiling q.

(** [l[i]] *)
Definition getitem {A} (l : list A) (i : Z) : result A :=
  let n := Z.of_nat (length l) in
  let j := if i <? 0 then i + n else i in
  if j <? 0 then Raise IndexError
  else match nth_error l (Z.to_nat j) with
       | Some a => Ok a
       | None => Raise IndexError
       end.

(** The bound of a slice [l[start:stop]] after normalisation against the
    length [len]: a negative bound counts from the end, and every bound is
    then brought into [0..len]. *)
Definition slice_index (i len : Z) : Z :=
  if i <? 0 then Z.max (i + len) 0 else Z.min i len.

(** The elements of [l] at positions [lo <= p < hi]. *)
Definition span {A} (l : list A) (lo hi : Z) : list A :=
  firstn (Z.to_nat (hi - lo)) (skipn (Z.to_nat lo) l).

(** [l[start:stop]] *)
Definition slice {A} (l : list A) (start stop : Z) : list A :=
  let n := Z.of_nat (length l) in
  span l (slice_index start n) (slice_index stop n).

End Py.

Import Py.

Declare Scope py_scope.
Delimit Scope py_scope with py.
Notation "x <- m ;; k" := (bind m (fun x => k))
  (at level 61, m at next level, right associativity) : py_scope.
Notation "' pat <- m ;; k" := (bind m (fun x => match x with pat => k end))
  (at level 61, pat pattern, m at next level, right associativity) : py_scope.
Local Open Scope py_scope.

(** ** Data model *)

(** A box [(startX, startY, endX, endY)]. *)
Definition box : Type := Z * Z * Z * Z.

(** A row of one plane of a detector output tensor. *)
Definition row : Type := list Q.

(** A 4-D tensor [t[n, channel, y, x]], as returned by the detector:
    [scores] has shape (1,1,rows,columns), [geometry] (1,5,rows,columns). *)
Definition tensor : Type := list (list (list row)).

(** [t[a, b, y]] *)
Definition tensor_row (t : tensor) (a b y : Z) : result row :=
  n <- getitem t a ;; c <- getitem n b ;; getitem c y.

(** ** Geometry decoding *)

(** [geometryData(geometry, y)] *)
Definition geometryData (geometry : tensor) (y : Z)
  : result (row * row * row * row * row) :=
  xData0 <- tensor_row geometry 0 0 y ;;
  xData1 <- tensor_row geometry 0 1 y ;;
  xData2 <- tensor_row geometry 0 2 y ;;
  xData3 <- tensor_row geometry 0 3 y ;;
  angleData <- tensor_row geometry 0 4 y ;;
  Ok (angleData, xData0, xData1, xData2, xData3).

Section Geometry.

(** [np.cos] and [np.sin]. *)
Variables np_cos np_sin : Q -> Q.

(** [geometryCalculations(angleData, xData0, xData1, xData2, xData3, x, y)] *)
Definition geometryCalculations
    (angleData xData0 xData1 xData2 xData3 : row) (x y : Z) : result box :=
  let offsetX := (inject_Z x * 4)%Q in
  let offsetY := (inject_Z y * 4)%Q in
  angle <- getitem angleData x ;;
  let cos := np_cos angle in
  let sin := np_sin angle in
  d0 <- getitem xData0 x ;;
  d2 <- getitem xData2 x ;;
  let h := (d0 + d2)%Q in
  d1 <- getitem xData1 x ;;
  d3 <- getitem xData3 x ;;
  let w := (d1 + d3)%Q in
  let endX := int (offsetX + cos * d1 + sin * d2)%Q in
  let endY := int (offsetY - sin * d1 + cos * d2)%Q in
  let startX := int (inject_Z endX - w)%Q in
  let startY := int (inject_Z endY - h)%Q in
  Ok (startX, startY, endX, endY).

End Geometry.

(** ** Non-max suppression *)

Module NMS.

(** A candidate box with its confidence score. *)
Definition scored : Type := (box * Q)%type.

Section Suppression.

(** The overlap ratio of a remaining box (second argument) with a kept box
    (first argument), and the suppression threshold.  The specification
    leaves the metric (intersection over union, or intersection over the
    candidate's area) and the threshold value open. *)
Variable overlap : box -> box -> Q.
Variable overlapThresh : Q.

(** Modelled from the spec: step 2 of the suppression algorithm, "sort boxes
    by descending confidence score (stable sort; ties broken by original
    scan order)".  [insert c l] puts [c] in front of the first entry whose
    score is not above its own. *)
Fixpoint insert (c : scored) (l : list scored) : list scored :=
  match l with
  | [] => [c]
  | d :: l' => if float_lt (snd c) (snd d) then d :: insert c l'
               else c :: d :: l'
  end.

Definition sort_desc (l : list scored) : list scored :=
  fold_right insert [] l.

(** "whose [overlap] with the kept box exceeds the suppression threshold" *)
Definition exceeds (kept c : scored) : bool :=
  float_lt overlapThresh (overlap (fst kept) (fst c)).

Definition survives (kept c : scored) : bool := negb (exceeds kept c).

(** Modelled from the spec: steps 1, 3 and 4 of the suppression algorithm.
    "If ScoredBoxSet is empty, return empty.  Repeat: pick the
    highest-remaining-score box, add to output, then remove every remaining
    box whose overlap with the kept box exceeds the suppression threshold.
    Continue until no boxes remain." *)
Equations? greedy (l : list scored) : list scored by wf (length l) Peano.lt :=
greedy [] := [];
greedy (k :: rest) := k :: greedy (filter (survives k) rest).
Proof.
  simpl. apply Nat.lt_succ_r, filter_length_le.
Qed.

(** Modelled from the spec: imutils' [non_max_suppression(boxes, probs)] is
    a third-party function whose code is not part of the repository; this
    is the suppression engine of the specification, applied to the parallel
    sequences of boxes and scores. *)
Definition non_max_suppression (boxes : list box) (probs : list Q)
  : list box :=
  map fst (greedy (sort_desc (combine boxes probs))).

End Suppression.

End NMS.

(** ** Candidate collection and detection *)

(** The local names of [generateTextBoundingBoxes] that the loops assign:
    the caller's lists [trust] and [boxs], appended to in place, and
    [startX, startY, endX, endY], bound together by the tuple assignment in
    the loop body and unbound ([None]) until it has run. *)
Record locals : Type := mkLocals {
  trust : list Q;
  boxs : list box;
  coords : option box
}.

Section Detection.

Variables np_cos np_sin : Q -> Q.
Variable overlap : box -> box -> Q.
Variable overlapThresh : Q.

(** The body of [for x in range(0, columns)]. *)
Definition scan_cell (minimumTrust : Q) (dataScores : row)
    (planes : row * row * row * row * row) (y : Z) (st : locals) (x : Z)
  : result locals :=
  s <- getitem dataScores x ;;
  if float_lt s minimumTrust then Ok st
  else
    let '(dataAngle, xData0, xData1, xData2, xData3) := planes in
    b <- geometryCalculations np_cos np_sin
           dataAngle xData0 xData1 xData2 xData3 x y ;;
    Ok {| trust := trust st ++ [s]; boxs := boxs st ++ [b];
          coords := Some b |}.

(** The body of [for y in range(0, lines)]. *)
Definition scan_row (scores geometry : tensor) (columns : Z)
    (minimumTrust : Q) (st : locals) (y : Z) : result locals :=
  dataScores <- tensor_row scores 0 0 y ;;
  planes <- geometryData geometry y ;;
  for_each (scan_cell minimumTrust dataScores planes y) (range columns) st.

(** The two nested loops of [generateTextBoundingBoxes] (lines 138-146):
    the candidate box collector. *)
Definition collect (lines : Z) (scores geometry : tensor) (columns : Z)
    (minimumTrust : Q) (trust0 : list Q) (boxs0 : list box)
  : result locals :=
  for_each (scan_row scores geometry columns minimumTrust) (range lines)
    {| trust := trust0; boxs := boxs0; coords := None |}.

(** [generateTextBoundingBoxes(lines, scores, geometry, columns,
    minimumTrust, trust, boxs)].  The [return] statement reads [startX],
    [startY], [endX] and [endY], which are local names bound only by the
    loop body. *)
Definition generateTextBoundingBoxes (lines : Z) (scores geometry : tensor)
    (columns : Z) (minimumTrust : Q) (trust0 : list Q) (boxs0 : list box)
  : result (Z * Z * Z * Z * list box) :=
  st <- collect lines scores geometry columns minimumTrust trust0 boxs0 ;;
  let detections :=
    NMS.non_max_suppression overlap overlapThresh (boxs st) (trust st) in
  match coords st with
  | None => Raise UnboundLocalError
  | Some (startX, startY, endX, endY) =>
      Ok (startX, startY, endX, endY, detections)
  end.

End Detection.

(** ** Images and ROI extraction *)

(** A pixel [(B, G, R)] and an image [img[y][x]], a list of rows. *)
Definition pixel : Type := (Z * Z * Z)%type.
Definition image : Type := list (list pixel).

(** [img[r0:r1, c0:c1]] *)
Definition crop (img : image) (r0 r1 c0 c1 : Z) : image :=
  map (fun line => slice line c0 c1) (slice img r0 r1).

(** [img.size] for an image of 3-channel pixels. *)
Definition size (img : image) : Z :=
  fold_right (fun line n => 3 * Z.of_nat (length line) + n) 0 img.

(** The interpolation flags of [cv2.resize]. *)
Inductive interpolation : Type :=
| INTER_NEAREST | INTER_LINEAR | INTER_CUBIC | INTER_AREA.

(** The local names of [extractAndDrawROI] that its loop assigns: the
    caller's array [bkpImg], drawn on in place, and [regionOfInterest],
    unbound ([None]) until the loop body has run. *)
Record roi_locals : Type := mkRoiLocals {
  bkpImg : image;
  regionOfInterest : option image
}.

Section ROI.

(** [cv2.rectangle(img, pt1, pt2, color, thickness)] draws on [img] in
    place; the function gives the contents of [img] after the call. *)
Variable cv2_rectangle : image -> Z * Z -> Z * Z -> pixel -> Z -> image.

(** [cv2.resize(src, None, fx=fx, fy=fy, interpolation=i)] *)
Variable cv2_resize : image -> Q -> Q -> interpolation -> result image.

(** The four assignments at the head of the loop body (lines 177-180). *)
Definition rescale (d : box) (proportionW proportionH : Q) : box :=
  let '(startX, startY, endX, endY) := d in
  let startX := int (inject_Z startX * proportionW)%Q in
  let startY := int (inject_Z startY * proportionH)%Q in
  let endX := int (inject_Z endX * proportionW)%Q in
  let endY := int (inject_Z endY * proportionH)%Q in
  (startX, startY, endX, endY).

(** The body of [for (startX, startY, endX, endY) in detections]. *)
Definition roi_step (imageFromAlter : image) (proportionW proportionH : Q)
    (margin : Z) (st : roi_locals) (d : box) : roi_locals :=
  let '(startX, startY, endX, endY) := rescale d proportionW proportionH in
  {| regionOfInterest :=
       Some (crop imageFromAlter (startY - margin) (endY + margin)
                                 (startX - margin) (endX + margin));
     bkpImg :=
       cv2_rectangle (bkpImg st) (startX - margin, startY - margin)
                     (endX + margin, endY + margin) (0, 255, 0) 2 |}.

(** The loop of [extractAndDrawROI] (lines 175-182), from the copy of the
    input to the last iteration. *)
Definition roi_loop (bkpImg0 : image) (detections : list box)
    (proportionW proportionH : Q) (margin : Z) : roi_locals :=
  let imageFromAlter := bkpImg0 in   (* bkpImg.copy() *)
  fold_left (roi_step imageFromAlter proportionW proportionH margin)
    detections {| bkpImg := bkpImg0; regionOfInterest := None |}.

(** The rectangle that the loop body draws for one detection (line 182). *)
Definition draw_box (proportionW proportionH : Q) (margin : Z)
    (img : image) (d : box) : image :=
  let '(startX, startY, endX, endY) := rescale d proportionW proportionH in
  cv2_rectangle img (startX - margin, startY - margin)
    (endX + margin, endY + margin) (0, 255, 0) 2.

(** The crop that the loop body takes for one detection (line 181). *)
Definition crop_box (proportionW proportionH : Q) (margin : Z)
    (img : image) (d : box) : image :=
  let '(startX, startY, endX, endY) := rescale d proportionW proportionH in
  crop img (startY - margin) (endY + margin)
           (startX - margin) (endX + margin).

(** [extractAndDrawROI(bkpImg, detections, proportionW, proportionH, startX,
    startY, endX, endY, margin)]: the contents of the caller's [bkpImg]
    after the call, and the value returned or the exception raised.  The
    parameters [startX] to [endY] are rebound by the loop before any use. *)
Definition extractAndDrawROI (bkpImg0 : image) (detections : list box)
    (proportionW proportionH : Q) (startX startY endX endY : Z) (margin : Z)
  : image * result image :=
  let st := roi_loop bkpImg0 detections proportionW proportionH margin in
  (bkpImg st,
   match regionOfInterest st with
   | None => Raise UnboundLocalError
   | Some roi => cv2_resize roi (3 # 2) (3 # 2) INTER_CUBIC
   end).

End ROI.

(** ** The driver *)

Section Main.

Variables np_cos np_sin : Q -> Q.
Variable overlap : box -> box -> Q.
Variable overlapThresh : Q.
Variable cv2_rectangle : image -> Z * Z -> Z * Z -> pixel -> Z -> image.
Variable cv2_resize : image -> Q -> Q -> interpolation -> result image.

(** [imageToString(image, lang, config_tesseract)], the recognition engine. *)
Variable imageToString : image -> string -> string -> result string.

Definition min_confidence : Q := 9 # 10.

(** [scores.shape[2:4]] *)
Definition shape_2_4 (scores : tensor) : Z * Z :=
  match scores with
  | (lines :: _) :: _ =>
      (Z.of_nat (length lines),
       match lines with
       | line :: _ => Z.of_nat (length line)
       | [] => 0
       end)
  | _ => (0, 0)
  end.

(** Lines 25-37 of [main]: what [main] does with the value returned by
    [generateTextBoundingBoxes].  The result is the contents of [backup]
    afterwards and the lines printed, or the exception that ends [main]. *)
Definition main_report (backup : image) (prop_w prop_h : Q)
    (found : Z * Z * Z * Z * list box) : image * result (list string) :=
  let '(startX, startY, endX, endY, detections) := found in
  if Z.of_nat (length detections) =? 0 then
    (backup, Ok ["[WARN] Nenhuma região de texto detectada."%string])
  else
    let '(backup', roi) :=
      extractAndDrawROI cv2_rectangle cv2_resize backup detections
        prop_w prop_h startX startY endX endY 5 in
    match roi with
    | Raise e => (backup', Raise e)
    | Ok roi =>
        if size roi =? 0 then (backup', Ok ["[WARN] ROI vazia."%string])
        else
          match imageToString roi "por" "--tessdata-dir tessdata" with
          | Raise e => (backup', Raise e)
          | Ok text =>
              (backup', Ok ["[INFO] Texto reconhecido:"%string; text])
          end
    end.

(** [main], from line 19 on: [backup], [prop_w] and [prop_h] are what
    [load_and_prepare_image] returned, [scores] and [geometry] what the
    detector returned. *)
Definition main (backup : image) (prop_w prop_h : Q)
    (scores geometry : tensor) : image * result (list string) :=
  let '(lines, columns) := shape_2_4 scores in
  match generateTextBoundingBoxes np_cos np_sin overlap overlapThresh
          lines scores geometry columns min_confidence [] [] with
  | Raise e => (backup, Raise e)
  | Ok found => main_report backup prop_w prop_h found
  end.

End Main.

(** ** Definitions that follow the specification's words *)

(** The crop of the specification's ROI extractor: the rectangle of rows
    [r0 <= y < r1] and columns [c0 <= x < c1], "clipped to
    [0, originalWidth) x [0, originalHeight)", cut out of the image. *)
Definition clipped_crop (img : image) (r0 r1 c0 c1 : Z) : image :=
  let originalHeight := Z.of_nat (length img) in
  map (fun line =>
         let originalWidth := Z.of_nat (length line) in
         span line (Z.max 0 c0) (Z.min c1 originalWidth))
      (span img (Z.max 0 r0) (Z.min r1 originalHeight)).

(** One of the two overlap metrics the specification names: the area of the
    intersection over the area of the candidate box. *)
Definition area (b : box) : Z :=
  let '(startX, startY, endX, endY) := b in (endX - startX) * (endY - startY).

Definition intersection (a b : box) : Z :=
  let '(ax1, ay1, ax2, ay2) := a in
  let '(bx1, by1, bx2, by2) := b in
  Z.max 0 (Z.min ax2 bx2 - Z.max ax1 bx1)
  * Z.max 0 (Z.min ay2 by2 - Z.max ay1 by1).

Definition overlap_of_candidate (kept candidate : box) : Q :=
  (inject_Z (intersection kept candidate) / inject_Z (area candidate))%Q.

(** The property the specification asks of every box entering suppression. *)
Definition ordered (b : box) : Prop :=
  let '(startX, startY, endX, endY) := b in startX <= endX /\ startY <= endY.

(** At every cell of [geometry], the two vertical distances and the two
    horizontal distances have a sum that is not negative. *)
Definition extents_nonneg (geometry : tensor) : Prop :=
  forall y angleData xData0 xData1 xData2 xData3 x d0 d1 d2 d3,
    geometryData geometry y
    = Ok (angleData, xData0, xData1, xData2, xData3) ->
    getitem xData0 x = Ok d0 -> getitem xData1 x = Ok d1 ->
    getitem xData2 x = Ok d2 -> getitem xData3 x = Ok d3 ->
    (0 <= d0 + d2)%Q /\ (0 <= d1 + d3)%Q.

(** The grid-shape invariant of the data model: [scores] holds at least
    [lines] rows of at least [columns] entries in plane (0,0), and
    [geometry] does so in each of its five planes. *)
Definition rows_ok (lines columns : Z) (rows : list row) : bool :=
  forallb (fun y => match getitem rows y with
                    | Ok r => columns <=? Z.of_nat (length r)
                    | Raise _ => false
                    end)
          (range lines).

Definition well_shaped (lines columns : Z) (scores geometry : tensor)
  : bool :=
  match scores, geometry with
  | (s :: _) :: _, (g0 :: g1 :: g2 :: g3 :: g4 :: _) :: _ =>
      forallb (rows_ok lines columns) [s; g0; g1; g2; g3; g4]
  | _, _ => false
  end.

(** The candidate set held by a loop state: the pairs of a box and its
    score. *)
Definition candidates (st : locals) : list (box * Q) :=
  combine (boxs st) (trust st).

(** The relation kept between a run with the lower threshold (first) and a
    run with the higher one (second). *)
Definition covers (st1 st2 : locals) : Prop :=
  length (boxs st1) = length (trust st1) /\
  length (boxs st2) = length (trust st2) /\
  incl (candidates st2) (candidates st1).

(** ** Stand-ins for the external calls, used at concrete inputs *)

(** A drawing routine that sets the pixels on the one-pixel outline of the
    rectangle with corners [pt1] and [pt2] that fall inside the image.
    [cv2.rectangle] with thickness 2 sets these pixels and neighbours of
    them. *)
Definition on_outline (pt1 pt2 : Z * Z) (x y : Z) : bool :=
  let '(x1, y1) := pt1 in
  let '(x2, y2) := pt2 in
  (x1 <=? x) && (x <=? x2) && (y1 <=? y) && (y <=? y2)
  && ((x =? x1) || (x =? x2) || (y =? y1) || (y =? y2)).

Definition enumerate {A} (l : list A) : list (Z * A) :=
  combine (range (Z.of_nat (length l))) l.

Definition draw_outline (img : image) (pt1 pt2 : Z * Z) (color : pixel)
    (thickness : Z) : image :=
  map (fun '(y, line) =>
         map (fun '(x, p) => if on_outline pt1 pt2 x y then color else p)
             (enumerate line))
      (enumerate img).

(** A resize that duplicates no pixel and drops none, and fails on an empty
    source as [cv2.resize] does. *)
Definition resize_identity (src : image) (fx fy : Q) (i : interpolation)
  : result image :=
  if size src =? 0 then Raise Cv2Error else Ok src.

(** Polynomial stand-ins for [np.cos] and [np.sin], exact at 0. *)
Definition cos_poly (a : Q) : Q := (1 - a * a / 2)%Q.
Definition sin_poly (a : Q) : Q := (a - a * a * a / 6)%Q.

(** A grid of one cell: its score, and its four distances and angle. *)
Definition one_cell_scores (s : Q) : tensor := [[[[s]]]].
Definition one_cell_geometry (d0 d1 d2 d3 angle : Q) : tensor :=
  [[[[d0]]; [[d1]]; [[d2]]; [[d3]]; [[angle]]]].

(** A 4x4 image whose pixel at row [y], column [x] is [(y, x, 0)]. *)
Definition image4 : image :=
  map (fun y => map (fun x => (y, x, 0)) (range 4)) (range 4).

(** ** The functions around the detection stage *)

(** The exceptions these functions can end with: those of [Py], and the
    ones below.  [FileNotFoundError] is the exception that the docstring of
    [readImageWithOpenCV] announces. *)
Inductive error : Type :=
| Builtin (e : exn)
| ZeroDivisionError
| TypeError
| FileNotFoundError
| OSError.

Inductive outcome (A : Type) : Type :=
| Returns (a : A)
| Raises (e : error).
Arguments Returns {A} a.
Arguments Raises {A} e.

Definition and_then {A B} (m : outcome A) (k : A -> outcome B)
  : outcome B :=
  match m with
  | Returns a => k a
  | Raises e => Raises e
  end.

Definition lift {A} (m : result A) : outcome A :=
  match m with
  | Ok a => Returns a
  | Raise e => Raises (Builtin e)
  end.

Notation "x <~ m ;; k" := (and_then m (fun x => k))
  (at level 61, m at next level, right associativity) : py_scope.
Notation "' pat <~ m ;; k" :=
  (and_then m (fun x => match x with pat => k end))
  (at level 61, pat pattern, m at next level, right associativity)
  : py_scope.

(** [for v in xs: body] for bodies that end in an [outcome]. *)
Fixpoint for_all {S A} (body : S -> A -> outcome S) (xs : list A) (s : S)
  : outcome S :=
  match xs with
  | [] => Returns s
  | v :: rest => and_then (body s v) (for_all body rest)
  end.

(** [a / b], the true division of Python numbers. *)
Definition true_div (a b : Q) : outcome Q :=
  if Qeq_bool b 0 then Raises ZeroDivisionError else Returns (a / b)%Q.

(** [min(a, b)]: the first of the smallest arguments. *)
Definition min2 (a b : Q) : Q := if float_lt b a then b else a.

(** [img.shape[:2]]: the numbers of rows and of columns. *)
Definition shape {A} (img : list (list A)) : Z * Z :=
  (Z.of_nat (length img),
   match img with
   | line :: _ => Z.of_nat (length line)
   | [] => 0
   end).

Section Loading.

(** [cv2.imread(path)]: the image, or [None] when it cannot be read. *)
Variable cv2_imread : string -> option image.

(** [cv2.resize(image, (width, height))] *)
Variable cv2_resize_to : image -> Z * Z -> outcome image.

(** [readImageWithOpenCV(pathImage)] of [services/tesseractUtils.py].  When
    [cv2.imread] returns [None], the [raise] statement first evaluates
    [FileNotFoundError(message, end='\n\n')]; the constructor accepts no
    keyword argument, and the call ends with [TypeError]. *)
Definition readImageWithOpenCV (pathImage : string) : outcome image :=
  match cv2_imread pathImage with
  | None => Raises TypeError
  | Some img => Returns img
  end.

(** [resizeImageToFitScreen(image, width, height)] of
    [services/tesseractUtils.py]. *)
Definition resizeImageToFitScreen (img : image) (width height : Z)
  : outcome image :=
  cv2_resize_to img (width, height).

(** [load_and_prepare_image(path, target_width, target_height)] of
    [src/main.py]. *)
Definition load_and_prepare_image (path : string)
    (target_width target_height : Z)
  : outcome (image * image * image * Q * Q) :=
  img <~ readImageWithOpenCV path ;;
  let bkp := img in   (* img.copy() *)
  prop_h <~ true_div (inject_Z (fst (shape img)))
                     (inject_Z target_height) ;;
  prop_w <~ true_div (inject_Z (snd (shape img)))
                     (inject_Z target_width) ;;
  resized <~ resizeImageToFitScreen img target_width target_height ;;
  Returns (img, bkp, resized, prop_w, prop_h).

End Loading.

(** ** The modules at the top of the source tree

    [tesseractUtils.py] and [preprocessing.py] next to the first [main.py]:
    annotation of the recognizer's word boxes and preprocessing. *)

Module Legacy.

(** A grayscale image: rows of unsigned 8-bit values. *)
Definition gray_image : Type := list (list Z).

(** [colorInversion(gray)]: [255 - gray], computed on unsigned 8-bit
    values. *)
Definition colorInversion (gray : gray_image) : gray_image :=
  map (map (fun v => (255 - v) mod 256)) gray.

(** The dictionary returned by [imageToData] ([Output.DICT]), by key. *)
Record ocr_data : Type := mkOcrData {
  text : list string;
  conf : list Q;
  left : list Z;
  top : list Z;
  width : list Z;
  height : list Z
}.

(** The local names of [travelImage] that its loop assigns. *)
Record travel_locals : Type := mkTravelLocals {
  data : list string;
  imgCopy : image
}.

Section Annotation.

Variable cv2_rectangle : image -> Z * Z -> Z * Z -> pixel -> Z -> image.

(** [cv2.resize(image, new_dim, interpolation=i)] *)
Variable cv2_resize_to : image -> Z * Z -> interpolation -> outcome image.

(** The Pillow calls of [writeText]: load the font [font] at size
    [sizeFont] and draw [text] at [pos] in colour [fill] on a copy of
    [img]. *)
Variable pil_draw_text :
  image -> Z * Z -> string -> string -> Z -> pixel -> outcome image.

(** [re.match(regex, text)]: a match object or [None]. *)
Variable re_match_object : Type.
Variable re_match : string -> string -> option re_match_object.

(** [text.isspace()] *)
Variable str_isspace : string -> bool.

(** [resizeImageToFitScreen(image, max_width, max_height)] *)
Definition resizeImageToFitScreen (img : image) (max_width max_height : Z)
  : outcome image :=
  let '(h, w) := shape img in
  a <~ true_div (inject_Z max_width) (inject_Z w) ;;
  b <~ true_div (inject_Z max_height) (inject_Z h) ;;
  let scale := min2 (min2 a b) 1 in   (* min(a, b, 1) *)
  let new_dim := (int (inject_Z w * scale)%Q, int (inject_Z h * scale)%Q) in
  cv2_resize_to img new_dim INTER_AREA.

(** [textBox(result, img, i, color)]: the rectangle is drawn on [img] in
    place. *)
Definition textBox (result : ocr_data) (img : image) (i : Z)
    (color : pixel) : outcome (Z * Z * image) :=
  x <~ lift (getitem (left result) i) ;;
  y <~ lift (getitem (top result) i) ;;
  w <~ lift (getitem (width result) i) ;;
  h <~ lift (getitem (height result) i) ;;
  Returns (x, y, cv2_rectangle img (x, y) (x + w, y + h) color 2).

(** [writeText(text, x, y, img, font, sizeFont, fill)] *)
Definition writeText (txt : string) (x y : Z) (img : image) (font : string)
    (sizeFont : Z) (fill : pixel) : outcome image :=
  let pos := (x, y - sizeFont) in
  pil_draw_text img pos txt font sizeFont fill.

(** [findWithRegex(text, regex)] *)
Definition findWithRegex (txt regex : string) : option re_match_object :=
  re_match regex txt.

Definition date_regex : string :=
  "\b([0-3]?[0-9])/([0-1]?[0-9])/([0-9]{4})\b".

(** The body of the loop of [travelImage]. *)
Definition travel_step (result : ocr_data) (minConfi type : Z)
    (st : travel_locals) (i : Z) : outcome travel_locals :=
  let font := "fontes\calibri.ttf"%string in
  c <~ lift (getitem (conf result) i) ;;
  let trust := int c in
  txt <~ lift (getitem (text result) i) ;;
  if minConfi <? trust then
    if negb (str_isspace txt) && (0 <? Z.of_nat (String.length txt)) then
      match type with
      | 1 =>
          '(x, y, img) <~ textBox result (imgCopy st) i (255, 100, 0) ;;
          drawn <~ writeText txt x y img font 15 (255, 0, 0) ;;
          Returns {| data := data st; imgCopy := drawn |}
      | 2 =>
          match findWithRegex txt date_regex with
          | Some _ =>
              '(x, y, img) <~ textBox result (imgCopy st) i (0, 255, 0) ;;
              drawn <~ writeText txt x y img font 15 (0, 255, 0) ;;
              Returns {| data := data st ++ [txt]; imgCopy := drawn |}
          | None =>
              '(x, y, img) <~ textBox result (imgCopy st) i (255, 100, 0) ;;
              Returns {| data := data st; imgCopy := img |}
          end
      | _ => Returns st
      end
    else Returns st
  else Returns st.

(** [travelImage(img, result, minConfi, type)] *)
Definition travelImage (img : image) (result : ocr_data)
    (minConfi type : Z) : outcome (list string * image) :=
  st <~ for_all (travel_step result minConfi type)
          (range (Z.of_nat (length (text result))))
          {| data := []; imgCopy := img |} ;;   (* imgCopy = img.copy() *)
  Returns (data st, imgCopy st).

End Annotation.

End Legacy.

(** The invariant of the collector's loops: scores and boxes are appended
    behind the caller's entries and kept in step; every appended score is
    at least the threshold; [coords] is the box appended last. *)
Definition appended (minimumTrust : Q) (trust0 : list Q) (boxs0 : list box)
    (st : locals) : Prop :=
  exists (ts : list Q) (bs : list box),
    trust st = trust0 ++ ts /\ boxs st = boxs0 ++ bs
    /\ length ts = length bs
    /\ Forall (fun s => (minimumTrust <= s)%Q) ts
    /\ coords st = match rev bs with [] => None | b :: _ => Some b end.



(** A recognizer's result of three words, and stand-ins for Pillow's
    drawing, for [re.match] with the date pattern and for [str.isspace], as
    they behave on these words. *)
Definition three_words : Legacy.ocr_data :=
  {| Legacy.text := ["Data:"; "01/02/2024"; " "]%string;
     Legacy.conf := [96; 91; 95]%Q;
     Legacy.left := [0; 1; 2];
     Legacy.top := [0; 1; 0];
     Legacy.width := [1; 1; 1];
     Legacy.height := [1; 1; 1] |}.

Definition draw_no_text (img : image) (pos : Z * Z) (txt font : string)
    (sizeFont : Z) (fill : pixel) : outcome image :=
  Returns img.

Definition match_the_date (regex txt : string) : option unit :=
  if String.eqb txt "01/02/2024" then Some tt else None.

Definition is_one_space (txt : string) : bool := String.eqb txt " ".

(** ** The machine's arithmetic

    The definitions above compute on the rationals that the floating-point
    values denote.  The running program rounds: [Machine] embeds the same
    statements with the arithmetic operations and the score test as
    parameters, and [Float] gives the correctly rounded binary operations
    to instantiate them with. *)

Module Float.

(** [floor(log2 |q|)], for [q] other than 0. *)
Definition exponent (q : Q) : Z :=
  let a := (Z.abs (Qnum q) # Qden q) in
  let e := Z.log2 (Z.abs (Qnum q)) - Z.log2 (Zpos (Qden q)) in
  if Qle_bool (Qpower 2 e) a then e else e - 1.

(** The integer nearest to [m]; the even one when [m] lies halfway between
    two integers. *)
Definition nearest_even (m : Q) : Z :=
  let f := Qfloor m in
  let r := (m - inject_Z f)%Q in
  if Qeq_bool r (1 # 2) then (if Z.even f then f else f + 1)
  else if Qle_bool r (1 # 2) then f
  else f + 1.

(** [q] rounded to the nearest number with a significand of [prec] bits,
    ties to even: 24 bits for binary32, 53 for binary64.  The exponent
    range is taken unbounded (no overflow, no subnormal numbers). *)
Definition round (prec : Z) (q : Q) : Q :=
  if Qeq_bool q 0 then 0
  else
    let ulp := Qpower 2 (exponent q - (prec - 1)) in
    Qred (inject_Z (nearest_even (q / ulp)) * ulp).

End Float.

Module Machine.

(** The operations of the detection stage, as the interpreter and NumPy
    evaluate them. *)
Record arithmetic : Type := mkArithmetic {
  (** [np.cos] and [np.sin] on a float32 value *)
  np_cos : Q -> Q;
  np_sin : Q -> Q;
  (** [a + b] and [a * b] of two float32 values *)
  add32 : Q -> Q -> Q;
  mul32 : Q -> Q -> Q;
  (** [a + b] and [a - b] where a Python number, or the result of such an
      operation, meets a float32 value: a float32 operation under NumPy
      2's promotion rules, a float64 operation under NumPy 1's *)
  add_mixed : Q -> Q -> Q;
  sub_mixed : Q -> Q -> Q;
  (** [a * b] of an integer and a Python float: a float64 operation *)
  mul64 : Q -> Q -> Q;
  (** [score < minimumTrust] of a float32 score and the Python float
      threshold *)
  score_lt : Q -> Q -> bool
}.

(** Arithmetic without rounding: the one of the definitions above. *)
Definition exact (cos sin : Q -> Q) : arithmetic :=
  {| np_cos := cos; np_sin := sin;
     add32 := Qplus; mul32 := Qmult;
     add_mixed := Qplus; sub_mixed := Qminus;
     mul64 := Qmult;
     score_lt := float_lt |}.

(** Correctly rounded arithmetic with NumPy 2's promotion rules: a Python
    number that meets a float32 value is converted to float32. *)
Definition numpy2 (cos sin : Q -> Q) : arithmetic :=
  {| np_cos := fun a => Float.round 24 (cos a);
     np_sin := fun a => Float.round 24 (sin a);
     add32 := fun a b => Float.round 24 (a + b);
     mul32 := fun a b => Float.round 24 (a * b);
     add_mixed := fun a b => Float.round 24 (a + b);
     sub_mixed := fun a b => Float.round 24 (a - b);
     mul64 := fun a b => Float.round 53 (a * b);
     score_lt := fun s t => float_lt s (Float.round 24 t) |}.


Section Stage.

Variable A : arithmetic.

(** [geometryCalculations(angleData, xData0, xData1, xData2, xData3, x, y)] *)
Definition geometryCalculations
    (angleData xData0 xData1 xData2 xData3 : row) (x y : Z) : result box :=
  let offsetX := mul64 A (inject_Z x) 4 in
  let offsetY := mul64 A (inject_Z y) 4 in
  angle <- getitem angleData x ;;
  let cos := np_cos A angle in
  let sin := np_sin A angle in
  d0 <- getitem xData0 x ;;
  d2 <- getitem xData2 x ;;
  let h := add32 A d0 d2 in
  d1 <- getitem xData1 x ;;
  d3 <- getitem xData3 x ;;
  let w := add32 A d1 d3 in
  let endX :=
    int (add_mixed A (add_mixed A offsetX (mul32 A cos d1))
                     (mul32 A sin d2)) in
  let endY :=
    int (add_mixed A (sub_mixed A offsetY (mul32 A sin d1))
                     (mul32 A cos d2)) in
  let startX := int (sub_mixed A (inject_Z endX) w) in
  let startY := int (sub_mixed A (inject_Z endY) h) in
  Ok (startX, startY, endX, endY).

(** The body of [for x in range(0, columns)]. *)
Definition scan_cell (minimumTrust : Q) (dataScores : row)
    (planes : row * row * row * row * row) (y : Z) (st : locals) (x : Z)
  : result locals :=
  s <- getitem dataScores x ;;
  if score_lt A s minimumTrust then Ok st
  else
    let '(dataAngle, xData0, xData1, xData2, xData3) := planes in
    b <- geometryCalculations dataAngle xData0 xData1 xData2 xData3 x y ;;
    Ok {| trust := trust st ++ [s]; boxs := boxs st ++ [b];
          coords := Some b |}.

(** The body of [for y in range(0, lines)]. *)
Definition scan_row (scores geometry : tensor) (columns : Z)
    (minimumTrust : Q) (st : locals) (y : Z) : result locals :=
  dataScores <- tensor_row scores 0 0 y ;;
  planes <- geometryData geometry y ;;
  for_each (scan_cell minimumTrust dataScores planes y) (range columns) st.

(** The two nested loops of [generateTextBoundingBoxes] (lines 138-146). *)
Definition collect (lines : Z) (scores geometry : tensor) (columns : Z)
    (minimumTrust : Q) (trust0 : list Q) (boxs0 : list box)
  : result locals :=
  for_each (scan_row scores geometry columns minimumTrust) (range lines)
    {| trust := trust0; boxs := boxs0; coords := None |}.

(** The four assignments at the head of the loop body of
    [extractAndDrawROI] (lines 177-180): a NumPy integer times a Python
    float, truncated. *)
Definition rescale (d : box) (proportionW proportionH : Q) : box :=
  let '(startX, startY, endX, endY) := d in
  let startX := int (mul64 A (inject_Z startX) proportionW) in
  let startY := int (mul64 A (inject_Z startY) proportionH) in
  let endX := int (mul64 A (inject_Z endX) proportionW) in
  let endY := int (mul64 A (inject_Z endY) proportionH) in
  (startX, startY, endX, endY).

Variable cv2_rectangle : image -> Z * Z -> Z * Z -> pixel -> Z -> image.

(** The body of [for (startX, startY, endX, endY) in detections]. *)
Definition roi_step (imageFromAlter : image) (proportionW proportionH : Q)
    (margin : Z) (st : roi_locals) (d : box) : roi_locals :=
  let '(startX, startY, endX, endY) := rescale d proportionW proportionH in
  {| regionOfInterest :=
       Some (crop imageFromAlter (startY - margin) (endY + margin)
                                 (startX - margin) (endX + margin));
     bkpImg :=
       cv2_rectangle (bkpImg st) (startX - margin, startY - margin)
                     (endX + margin, endY + margin) (0, 255, 0) 2 |}.

(** The loop of [extractAndDrawROI] (lines 175-182). *)
Definition roi_loop (bkpImg0 : image) (detections : list box)
    (proportionW proportionH : Q) (margin : Z) : roi_locals :=
  let imageFromAlter := bkpImg0 in   (* bkpImg.copy() *)
  fold_left (roi_step imageFromAlter proportionW proportionH margin)
    detections {| bkpImg := bkpImg0; regionOfInterest := None |}.

End Stage.

End Machine.

(** A row of [n] zeros followed by [v], and an image of [h] rows of [w]
    pixels whose pixel at row [y], column [x] is [(y, x, 0)]. *)
Definition zeros_then (n : nat) (v : Q) : row := repeat 0%Q n ++ [v].

Definition plain_image (h w : Z) : image :=
  map (fun y => map (fun x => (y, x, 0)) (range w)) (range h).

(** * Properties *)

(** ** Facts about the Python fragment *)

Lemma int_comp (p q : Q) : (p == q)%Q -> int p = int q.
Proof.
  intros E. unfold int. rewrite E.
  destruct (Qle_bool 0 q); [| unfold Qceiling]; now rewrite E.
Qed.

Lemma int_inject_Z (z : Z) : int (inject_Z z) = z.
Proof.
  unfold int. destruct (Qle_bool 0 (inject_Z z)).
  - apply Qfloor_Z.
  - apply Qceiling_Z.
Qed.

Lemma Qle_bool_false (p q : Q) : Qle_bool p q = false -> (q < p)%Q.
Proof.
  intros E. apply Qnot_le_lt. intros L.
  apply Qle_bool_iff in L. congruence.
Qed.

(** Truncation toward zero is monotone. *)
Lemma int_le (p q : Q) : (p <= q)%Q -> int p <= int q.
Proof.
  intros L. unfold int.
  destruct (Qle_bool 0 p) eqn:Ep, (Qle_bool 0 q) eqn:Eq.
  - now apply Qfloor_resp_le.
  - apply Qle_bool_iff in Ep. apply Qle_bool_false in Eq.
    exfalso. apply (Qlt_irrefl 0).
    apply Qle_lt_trans with q; [apply Qle_trans with p |]; assumption.
  - apply Qle_bool_false in Ep. apply Qle_bool_iff in Eq.
    apply Z.le_trans with 0.
    + rewrite <- (Qceiling_Z 0). apply Qceiling_resp_le, Qlt_le_weak, Ep.
    + rewrite <- (Qfloor_Z 0). now apply Qfloor_resp_le.
  - now apply Qceiling_resp_le.
Qed.

Lemma float_lt_true (a b : Q) : float_lt a b = true <-> (a < b)%Q.
Proof.
  unfold float_lt. rewrite negb_true_iff. split.
  - apply Qle_bool_false.
  - intros L. destruct (Qle_bool b a) eqn:E; [| reflexivity].
    apply Qle_bool_iff in E. exfalso. apply (Qlt_irrefl a).
    now apply Qlt_le_trans with b.
Qed.

Lemma float_lt_false (a b : Q) : float_lt a b = false <-> (b <= a)%Q.
Proof.
  unfold float_lt. rewrite negb_false_iff. apply Qle_bool_iff.
Qed.

Lemma getitem_In {A} (l : list A) (i : Z) (a : A) :
  getitem l i = Ok a -> In a l.
Proof.
  unfold getitem.
  destruct (_ <? 0); [discriminate |].
  destruct (nth_error l _) eqn:E; [| discriminate].
  intros [= <-]. eapply nth_error_In, E.
Qed.

(** Inside the bounds, [l[i]] is the element at position [i]. *)
Lemma getitem_nth {A} (l : list A) (i : Z) (d : A) :
  0 <= i < Z.of_nat (length l) ->
  getitem l i = Ok (nth (Z.to_nat i) l d).
Proof.
  intros [Lo Hi]. unfold getitem.
  destruct (i <? 0) eqn:E; [lia |].
  rewrite E.
  rewrite (nth_error_nth' l d) by lia. reflexivity.
Qed.

Lemma bind_Ok {A B} (m : result A) (k : A -> result B) (b : B) :
  bind m k = Ok b -> exists a, m = Ok a /\ k a = Ok b.
Proof.
  destruct m as [a | e]; simpl; [| discriminate].
  intros E. now exists a.
Qed.

(** ** Geometry decoding (C5, C7) *)

Section GeometryProperties.

Variables np_cos np_sin : Q -> Q.

(** What [geometryCalculations] returns, in terms of the values it read. *)
Lemma geometryCalculations_Ok angleData xData0 xData1 xData2 xData3 x y b :
  geometryCalculations np_cos np_sin angleData xData0 xData1 xData2 xData3 x y = Ok b ->
  exists angle d0 d1 d2 d3,
    getitem angleData x = Ok angle /\
    getitem xData0 x = Ok d0 /\ getitem xData1 x = Ok d1 /\
    getitem xData2 x = Ok d2 /\ getitem xData3 x = Ok d3 /\
    let endX := int (inject_Z x * 4 + np_cos angle * d1
                     + np_sin angle * d2)%Q in
    let endY := int (inject_Z y * 4 - np_sin angle * d1
                     + np_cos angle * d2)%Q in
    b = (int (inject_Z endX - (d1 + d3))%Q,
         int (inject_Z endY - (d0 + d2))%Q, endX, endY).
Proof.
  unfold geometryCalculations. intros E.
  apply bind_Ok in E as (angle & Ea & E).
  apply bind_Ok in E as (d0 & E0 & E).
  apply bind_Ok in E as (d2 & E2 & E).
  apply bind_Ok in E as (d1 & E1 & E).
  apply bind_Ok in E as (d3 & E3 & E).
  injection E as <-.
  exists angle, d0, d1, d2, d3. repeat split; assumption.
Qed.

(** A box is ordered as soon as the two sums of opposite distances are not
    negative. *)
Lemma geometryCalculations_ordered
    angleData xData0 xData1 xData2 xData3 x y b d0 d1 d2 d3 :
  geometryCalculations np_cos np_sin angleData xData0 xData1 xData2 xData3 x y = Ok b ->
  getitem xData0 x = Ok d0 -> getitem xData1 x = Ok d1 ->
  getitem xData2 x = Ok d2 -> getitem xData3 x = Ok d3 ->
  (0 <= d0 + d2)%Q -> (0 <= d1 + d3)%Q ->
  ordered b.
Proof.
  intros E E0 E1 E2 E3 Hh Hw.
  apply geometryCalculations_Ok in E
    as (angle & d0' & d1' & d2' & d3' & _ & F0 & F1 & F2 & F3 & ->).
  rewrite E0 in F0. rewrite E1 in F1. rewrite E2 in F2. rewrite E3 in F3.
  injection F0 as <-. injection F1 as <-.
  injection F2 as <-. injection F3 as <-.
  cbv zeta. unfold ordered.
  assert (shrink : forall (e : Z) (w : Q),
             (0 <= w)%Q -> int (inject_Z e - w)%Q <= e).
  { intros e w Hnn. rewrite <- (int_inject_Z e) at 2.
    apply int_le.
    rewrite <- (Qplus_0_r (inject_Z e)) at 2.
    apply Qplus_le_r.
    setoid_replace 0%Q with (- 0)%Q by reflexivity.
    now apply Qopp_le_compat. }
  split; apply shrink; assumption.
Qed.

End GeometryProperties.

(** C5.  At a cell whose angle is 0, [geometryCalculations] returns
    [endX = int(offsetX + d_right[x])], [endY = int(offsetY + d_bottom[x])],
    [startX = int(endX - (d_right[x] + d_left[x]))] and
    [startY = int(endY - (d_top[x] + d_bottom[x]))], with [offsetX = 4x],
    [offsetY = 4y], [int] truncating toward zero and the sums and
    differences being those that the machine computes.  The hypotheses are
    the facts of IEEE arithmetic that the reduction rests on, at the values
    read: [cos 0 = 1], [sin 0 = 0], [1 * d = d], [0 * d = 0], [s + 0 = s],
    [s - 0 = s], and [x * 4.0], [y * 4.0] computed without rounding. *)
Theorem geometryCalculations_zero_angle :
  forall (A : Machine.arithmetic)
         (angleData d_top d_right d_bottom d_left : row) (x y : Z)
         (angle top right bottom left : Q),
    getitem angleData x = Ok angle -> angle = 0%Q ->
    getitem d_top x = Ok top -> getitem d_right x = Ok right ->
    getitem d_bottom x = Ok bottom -> getitem d_left x = Ok left ->
    Machine.np_cos A 0 = 1%Q -> Machine.np_sin A 0 = 0%Q ->
    Machine.mul32 A 1 right = right -> Machine.mul32 A 1 bottom = bottom ->
    Machine.mul32 A 0 right = 0%Q -> Machine.mul32 A 0 bottom = 0%Q ->
    Machine.mul64 A (inject_Z x) 4 = inject_Z (4 * x) ->
    Machine.mul64 A (inject_Z y) 4 = inject_Z (4 * y) ->
    let offsetX := inject_Z (4 * x) in
    let offsetY := inject_Z (4 * y) in
    Machine.add_mixed A (Machine.add_mixed A offsetX right) 0
    = Machine.add_mixed A offsetX right ->
    Machine.sub_mixed A offsetY 0 = offsetY ->
    let endX := int (Machine.add_mixed A offsetX right) in
    let endY := int (Machine.add_mixed A offsetY bottom) in
    let startX :=
      int (Machine.sub_mixed A (inject_Z endX)
             (Machine.add32 A right left)) in
    let startY :=
      int (Machine.sub_mixed A (inject_Z endY)
             (Machine.add32 A top bottom)) in
    Machine.geometryCalculations A
      angleData d_top d_right d_bottom d_left x y
    = Ok (startX, startY, endX, endY).
Proof.
  intros A angleData d_top d_right d_bottom d_left x y
         angle top right bottom left Ea Hzero Et Er Eb El
         Hcos Hsin M1r M1b M0r M0b Ox Oy offsetX offsetY Add0 Sub0.
  cbv zeta. unfold Machine.geometryCalculations.
  rewrite Ea, Et, Eb, Er, El. cbn [bind]. subst angle.
  rewrite Hcos, Hsin, M1r, M1b, M0r, M0b, Ox, Oy.
  fold offsetX offsetY. rewrite Add0, Sub0. reflexivity.
Qed.

(** C5 at column 79 of row 0 with [d_right = float32(0.99999)], in
    correctly rounded arithmetic under NumPy 2's rules: [316.0 + 0.99999]
    rounds to [317.0] in float32, and the box is (314,-1,317,1).  (Without
    rounding the sum is truncated to 316.) *)
Lemma geometryCalculations_zero_angle_witness :
  Machine.geometryCalculations (Machine.numpy2 cos_poly sin_poly)
    (zeros_then 79 0) (zeros_then 79 1)
    (zeros_then 79 (2097131 # 2097152)) (zeros_then 79 (3 # 2))
    (zeros_then 79 2) 79 0
  = Ok (314, -1, 317, 1).
Proof.
  apply (geometryCalculations_zero_angle
           (Machine.numpy2 cos_poly sin_poly)
           (zeros_then 79 0) (zeros_then 79 1)
           (zeros_then 79 (2097131 # 2097152)) (zeros_then 79 (3 # 2))
           (zeros_then 79 2) 79 0
           0%Q 1%Q (2097131 # 2097152) (3 # 2) 2%Q);
    vm_compute; reflexivity.
Defined.

(** The same cell in arithmetic without rounding. *)
Example geometryCalculations_without_rounding :
  geometryCalculations cos_poly sin_poly
    (zeros_then 79 0) (zeros_then 79 1)
    (zeros_then 79 (2097131 # 2097152)) (zeros_then 79 (3 # 2))
    (zeros_then 79 2) 79 0
  = Ok (313, -1, 316, 1).
Proof. vm_compute. reflexivity. Qed.

(** The definitions on exact rationals are the machine's with arithmetic
    that does not round. *)
Lemma exact_geometryCalculations (cos sin : Q -> Q)
    (angleData xData0 xData1 xData2 xData3 : row) (x y : Z) :
  Machine.geometryCalculations (Machine.exact cos sin)
    angleData xData0 xData1 xData2 xData3 x y
  = geometryCalculations cos sin angleData xData0 xData1 xData2 xData3 x y.
Proof. reflexivity. Qed.

Lemma exact_collect (cos sin : Q -> Q) (lines : Z)
    (scores geometry : tensor) (columns : Z) (minimumTrust : Q)
    (trust0 : list Q) (boxs0 : list box) :
  Machine.collect (Machine.exact cos sin) lines scores geometry columns
    minimumTrust trust0 boxs0
  = collect cos sin lines scores geometry columns minimumTrust
      trust0 boxs0.
Proof. reflexivity. Qed.

Lemma exact_roi_loop (cos sin : Q -> Q)
    (cv2_rectangle : image -> Z * Z -> Z * Z -> pixel -> Z -> image)
    (img : image) (detections : list box) (proportionW proportionH : Q)
    (margin : Z) :
  Machine.roi_loop (Machine.exact cos sin) cv2_rectangle img detections
    proportionW proportionH margin
  = roi_loop cv2_rectangle img detections proportionW proportionH margin.
Proof. reflexivity. Qed.

(** ** Loops *)

Lemma In_range (n v : Z) : In v (range n) <-> 0 <= v < n.
Proof.
  unfold range. rewrite in_map_iff. split.
  - intros (k & <- & Hk). apply in_seq in Hk. lia.
  - intros H. exists (Z.to_nat v). split; [lia |]. apply in_seq. lia.
Qed.

(** A property kept by every iteration that completes holds when the loop
    completes. *)
Lemma for_each_invariant {S A} (P : S -> Prop) (body : S -> A -> result S) :
  forall xs s s',
    (forall a v a', In v xs -> P a -> body a v = Ok a' -> P a') ->
    P s -> for_each body xs s = Ok s' -> P s'.
Proof.
  induction xs as [| v rest IH]; simpl; intros s s' Step Hs E.
  - now injection E as <-.
  - apply bind_Ok in E as (a & Ea & E).
    apply (IH a s'); [ | | exact E].
    + intros b w b' Hw. apply Step. now right.
    + apply (Step s v a); auto.
Qed.

(** The same for a relation between two runs over the same sequence. *)
Lemma for_each_related {S A} (R : S -> S -> Prop)
    (body1 body2 : S -> A -> result S) :
  forall xs s1 s2 s1' s2',
    (forall v a b a' b', In v xs -> R a b ->
        body1 a v = Ok a' -> body2 b v = Ok b' -> R a' b') ->
    R s1 s2 ->
    for_each body1 xs s1 = Ok s1' -> for_each body2 xs s2 = Ok s2' ->
    R s1' s2'.
Proof.
  induction xs as [| v rest IH]; simpl; intros s1 s2 s1' s2' Step HR E1 E2.
  - injection E1 as <-. now injection E2 as <-.
  - apply bind_Ok in E1 as (a & Ea & E1).
    apply bind_Ok in E2 as (b & Eb & E2).
    apply (IH a b s1' s2'); [ | | exact E1 | exact E2].
    + intros w a0 b0 a' b' Hw. apply Step. now right.
    + apply (Step v s1 s2 a b); auto.
Qed.

(** A loop whose body never raises completes. *)
Lemma for_each_total {S A} (body : S -> A -> result S) :
  forall xs s,
    (forall a v, In v xs -> exists a', body a v = Ok a') ->
    exists s', for_each body xs s = Ok s'.
Proof.
  induction xs as [| v rest IH]; simpl; intros s Step.
  - now exists s.
  - destruct (Step s v) as (a & Ea); [now left |].
    rewrite Ea. simpl. apply IH. intros b w Hw. apply Step. now right.
Qed.

(** ** Candidate collection (C1, C6, C7) *)

Lemma combine_snoc {A B} (l : list A) (l' : list B) (a : A) (b : B) :
  length l = length l' ->
  combine (l ++ [a]) (l' ++ [b]) = combine l l' ++ [(a, b)].
Proof.
  revert l'. induction l as [| x l IH]; intros [| y l'] E;
    simpl in *; try discriminate; [reflexivity |].
  f_equal. apply IH. now injection E.
Qed.

Section DetectionProperties.

Variables np_cos np_sin : Q -> Q.

(** The two ways an iteration of the inner loop completes: the cell is
    skipped, or its box and score are appended and [coords] rebound. *)
Lemma scan_cell_Ok minimumTrust dataScores angleData xData0 xData1 xData2
    xData3 y st x st' :
  scan_cell np_cos np_sin minimumTrust dataScores
    (angleData, xData0, xData1, xData2, xData3) y st x = Ok st' ->
  exists s, getitem dataScores x = Ok s /\
    ((float_lt s minimumTrust = true /\ st' = st) \/
     (float_lt s minimumTrust = false /\
      exists b,
        geometryCalculations np_cos np_sin
          angleData xData0 xData1 xData2 xData3 x y = Ok b /\
        st' = {| trust := trust st ++ [s]; boxs := boxs st ++ [b];
                 coords := Some b |})).
Proof.
  unfold scan_cell. intros E.
  apply bind_Ok in E as (s & Es & E). exists s. split; [exact Es |].
  destruct (float_lt s minimumTrust).
  - left. split; [reflexivity |]. now injection E.
  - right. split; [reflexivity |].
    apply bind_Ok in E as (b & Eb & E). exists b. split; [exact Eb |].
    now injection E.
Qed.

(** A property of the loop state kept by every cell is kept by [collect]. *)
Lemma collect_invariant (P : locals -> Prop)
    lines scores geometry columns minimumTrust trust0 boxs0 st :
  (forall y dataScores planes a x a',
      geometryData geometry y = Ok planes -> P a ->
      scan_cell np_cos np_sin minimumTrust dataScores planes y a x = Ok a' ->
      P a') ->
  P {| trust := trust0; boxs := boxs0; coords := None |} ->
  collect np_cos np_sin lines scores geometry columns minimumTrust
    trust0 boxs0 = Ok st ->
  P st.
Proof.
  intros Step H0. unfold collect.
  apply for_each_invariant; [| exact H0].
  intros a y a' _ Ha E. unfold scan_row in E.
  apply bind_Ok in E as (dataScores & _ & E).
  apply bind_Ok in E as (planes & Ep & E).
  revert E. apply for_each_invariant; [| exact Ha].
  intros b x b' _. now apply Step.
Qed.

(** [coords] stays unbound only as long as nothing has been appended. *)
Lemma collect_coords
    lines scores geometry columns minimumTrust trust0 boxs0 st :
  collect np_cos np_sin lines scores geometry columns minimumTrust
    trust0 boxs0 = Ok st ->
  boxs st = [] -> coords st = None.
Proof.
  intros E.
  assert (H : coords st = None \/ boxs st <> []).
  { apply (collect_invariant
             (fun s => coords s = None \/ boxs s <> [])) in E;
      [exact E | | now left].
    intros y ds [[[[a p0] p1] p2] p3] s x s' _ Hs S.
    apply scan_cell_Ok in S as (q & _ & [[_ ->] | [_ (b & _ & ->)]]).
    - exact Hs.
    - right. simpl. now destruct (boxs s). }
  intros Hb. destruct H as [H | H]; [exact H | contradiction].
Qed.

(** Every box appended by [collect] is ordered when the extents of
    [geometry] are not negative. *)
Lemma collect_ordered
    lines scores geometry columns minimumTrust trust0 boxs0 st :
  extents_nonneg geometry ->
  Forall ordered boxs0 ->
  collect np_cos np_sin lines scores geometry columns minimumTrust
    trust0 boxs0 = Ok st ->
  Forall ordered (boxs st).
Proof.
  intros Hg H0 E.
  apply (collect_invariant (fun s => Forall ordered (boxs s))) in E;
    [exact E | | exact H0].
  intros y ds [[[[a p0] p1] p2] p3] s x s' Ep Hs S.
  apply scan_cell_Ok in S as (q & _ & [[_ ->] | [_ (b & Eb & ->)]]).
  - exact Hs.
  - simpl. apply Forall_app. split; [exact Hs |].
    constructor; [| constructor].
    pose proof Eb as Eb'.
    apply geometryCalculations_Ok in Eb'
      as (angle & d0 & d1 & d2 & d3 & _ & F0 & F1 & F2 & F3 & _).
    destruct (Hg y a p0 p1 p2 p3 x d0 d1 d2 d3 Ep F0 F1 F2 F3) as [Hh Hw].
    exact (geometryCalculations_ordered np_cos np_sin
             a p0 p1 p2 p3 x y b d0 d1 d2 d3 Eb F0 F1 F2 F3 Hh Hw).
Qed.

End DetectionProperties.

(** C1 (what the code does).  When the collector finishes with an empty
    candidate set, [generateTextBoundingBoxes] does not return an empty
    detection set: its [return] statement reads the unbound [startX] and
    raises [UnboundLocalError]. *)
Theorem generateTextBoundingBoxes_no_candidate_raises :
  forall (np_cos np_sin : Q -> Q) (overlap : box -> box -> Q)
         (overlapThresh : Q) (lines : Z) (scores geometry : tensor)
         (columns : Z) (minimumTrust : Q) (trust0 : list Q)
         (boxs0 : list box) (st : locals),
    collect np_cos np_sin lines scores geometry columns minimumTrust
      trust0 boxs0 = Ok st ->
    boxs st = [] ->
    generateTextBoundingBoxes np_cos np_sin overlap overlapThresh
      lines scores geometry columns minimumTrust trust0 boxs0
    = Raise UnboundLocalError.
Proof.
  intros np_cos np_sin overlap overlapThresh lines scores geometry columns
         minimumTrust trust0 boxs0 st E Hb.
  unfold generateTextBoundingBoxes. rewrite E. cbn [bind].
  now rewrite (collect_coords _ _ _ _ _ _ _ _ _ _ E Hb).
Qed.

(** C1 at the scenario of the specification: one cell of score 0.95,
    threshold 0.96. *)
Lemma generateTextBoundingBoxes_no_candidate_raises_witness :
  generateTextBoundingBoxes cos_poly sin_poly overlap_of_candidate (3 # 10)
    1 (one_cell_scores (19 # 20)) (one_cell_geometry 2 3 4 1 0)
    1 (24 # 25) [] []
  = Raise UnboundLocalError.
Proof.
  apply (generateTextBoundingBoxes_no_candidate_raises
           cos_poly sin_poly overlap_of_candidate (3 # 10)
           1 (one_cell_scores (19 # 20)) (one_cell_geometry 2 3 4 1 0)
           1 (24 # 25) [] []
           {| trust := []; boxs := []; coords := None |}).
  - reflexivity.
  - reflexivity.
Defined.

(** The same input with the threshold of the specification's first
    scenario, 0.9: one candidate, one detection, a normal return. *)
Example generateTextBoundingBoxes_one_candidate :
  generateTextBoundingBoxes cos_poly sin_poly overlap_of_candidate (3 # 10)
    1 (one_cell_scores (19 # 20)) (one_cell_geometry 2 3 4 1 0)
    1 (9 # 10) [] []
  = Ok (-1, -2, 3, 4, [(-1, -2, 3, 4)]).
Proof. reflexivity. Qed.

(** [main] on a map whose only cell is below [min_confidence]: the
    exception leaves [main] before its "no text region" report. *)
Example main_no_candidate :
  main cos_poly sin_poly overlap_of_candidate (3 # 10)
    draw_outline resize_identity (fun _ _ _ => Ok EmptyString)
    image4 1 1 (one_cell_scores (1 # 2)) (one_cell_geometry 2 3 4 1 0)
  = (image4, Raise UnboundLocalError).
Proof. reflexivity. Qed.

(** C7 (as amended).  When at every cell [d_top + d_bottom >= 0] and
    [d_right + d_left >= 0], every box that the collector appends to the
    candidate set has [startX <= endX] and [startY <= endY], whatever the
    angles. *)
Theorem collect_boxes_ordered :
  forall (np_cos np_sin : Q -> Q) (lines : Z) (scores geometry : tensor)
         (columns : Z) (minimumTrust : Q) (st : locals),
    extents_nonneg geometry ->
    collect np_cos np_sin lines scores geometry columns minimumTrust [] []
    = Ok st ->
    Forall ordered (boxs st).
Proof.
  intros np_cos np_sin lines scores geometry columns minimumTrust st Hg E.
  now apply (collect_ordered np_cos np_sin lines scores geometry columns
               minimumTrust [] [] st Hg).
Qed.

Lemma one_cell_extents_nonneg (d0 d1 d2 d3 angle : Q) :
  (0 <= d0 + d2)%Q -> (0 <= d1 + d3)%Q ->
  extents_nonneg (one_cell_geometry d0 d1 d2 d3 angle).
Proof.
  intros Hh Hw y a p0 p1 p2 p3 x e0 e1 e2 e3 E E0 E1 E2 E3.
  unfold geometryData, tensor_row, one_cell_geometry in E. cbn in E.
  apply bind_Ok in E as (r0 & R0 & E). apply getitem_In in R0.
  apply bind_Ok in E as (r1 & R1 & E). apply getitem_In in R1.
  apply bind_Ok in E as (r2 & R2 & E). apply getitem_In in R2.
  apply bind_Ok in E as (r3 & R3 & E). apply getitem_In in R3.
  apply bind_Ok in E as (r4 & R4 & E).
  injection E as <- <- <- <- <-.
  destruct R0 as [<- | []], R1 as [<- | []], R2 as [<- | []],
           R3 as [<- | []].
  apply getitem_In in E0, E1, E2, E3.
  destruct E0 as [<- | []], E1 as [<- | []], E2 as [<- | []],
           E3 as [<- | []].
  now split.
Qed.

(** C7 (as amended) on a cell with distances 2, 3, 4, 1. *)
Lemma collect_boxes_ordered_witness : Forall ordered [(-1, -2, 3, 4)].
Proof.
  apply (collect_boxes_ordered cos_poly sin_poly
           1 (one_cell_scores (19 # 20)) (one_cell_geometry 2 3 4 1 0)
           1 (9 # 10)
           {| trust := [19 # 20]%Q; boxs := [(-1, -2, 3, 4)];
              coords := Some (-1, -2, 3, 4) |}).
  - apply one_cell_extents_nonneg; discriminate.
  - reflexivity.
Defined.

(** C7 as stated fails: a cell whose left distance is -5 (the other
    distances and the angle 0) clears the threshold and its box (5,0,0,0),
    with [startX > endX], is appended to the candidate set. *)
Lemma collect_unordered_box :
  collect cos_poly sin_poly 1 (one_cell_scores 1)
    (one_cell_geometry 0 0 0 (-5 # 1) 0) 1 (9 # 10) [] []
  = Ok {| trust := [1%Q]; boxs := [(5, 0, 0, 0)];
          coords := Some (5, 0, 0, 0) |}
  /\ ~ ordered (5, 0, 0, 0).
Proof.
  split; [reflexivity |].
  unfold ordered. lia.
Qed.

(** ** Monotonicity of the confidence filter (C6) *)

Section Thresholds.

Variables np_cos np_sin : Q -> Q.

Lemma scan_cell_covers t1 t2 dataScores planes y st1 st2 x st1' st2' :
  (t1 < t2)%Q ->
  covers st1 st2 ->
  scan_cell np_cos np_sin t1 dataScores planes y st1 x = Ok st1' ->
  scan_cell np_cos np_sin t2 dataScores planes y st2 x = Ok st2' ->
  covers st1' st2'.
Proof.
  intros Ht (L1 & L2 & I) E1 E2.
  destruct planes as [[[[a p0] p1] p2] p3].
  apply scan_cell_Ok in E1 as (s & Es & C1).
  apply scan_cell_Ok in E2 as (s' & Es' & C2).
  rewrite Es in Es'. injection Es' as <-.
  destruct C1 as [[F1 ->] | [F1 (b1 & G1 & ->)]];
    destruct C2 as [[F2 ->] | [F2 (b2 & G2 & ->)]].
  - now repeat split.
  - (* below the lower threshold but not below the higher one *)
    apply float_lt_true in F1. apply float_lt_false in F2.
    exfalso. apply (Qlt_irrefl s).
    apply Qlt_trans with t1; [exact F1 |].
    now apply Qlt_le_trans with t2.
  - unfold covers, candidates in *. simpl.
    rewrite !length_app, L1.
    split; [reflexivity |]. split; [exact L2 |].
    rewrite combine_snoc by exact L1. now apply incl_appl.
  - rewrite G1 in G2. injection G2 as <-.
    unfold covers, candidates in *. simpl.
    rewrite !length_app, L1, L2.
    split; [reflexivity |]. split; [reflexivity |].
    rewrite !combine_snoc by assumption.
    apply incl_app; [now apply incl_appl |].
    apply incl_appr, incl_refl.
Qed.

Lemma collect_covers lines scores geometry columns t1 t2 st1 st2 :
  (t1 < t2)%Q ->
  collect np_cos np_sin lines scores geometry columns t1 [] [] = Ok st1 ->
  collect np_cos np_sin lines scores geometry columns t2 [] [] = Ok st2 ->
  incl (candidates st2) (candidates st1).
Proof.
  intros Ht E1 E2.
  enough (H : covers st1 st2) by apply H.
  revert E1 E2. unfold collect. apply for_each_related.
  - intros y a b a' b' _ Hab S1 S2. unfold scan_row in S1, S2.
    apply bind_Ok in S1 as (ds & Eds & S1).
    apply bind_Ok in S2 as (ds' & Eds' & S2).
    rewrite Eds in Eds'. injection Eds' as <-.
    apply bind_Ok in S1 as (planes & Ep & S1).
    apply bind_Ok in S2 as (planes' & Ep' & S2).
    rewrite Ep in Ep'. injection Ep' as <-.
    revert S1 S2. apply for_each_related; [| exact Hab].
    intros x c d c' d' _. now apply scan_cell_covers.
  - repeat split; try reflexivity. apply incl_refl.
Qed.

(** On maps of the announced shape no index is out of range and the
    collector completes. *)
Lemma rows_ok_getitem lines columns rows y :
  rows_ok lines columns rows = true -> 0 <= y < lines ->
  exists r, getitem rows y = Ok r /\ columns <= Z.of_nat (length r).
Proof.
  unfold rows_ok. rewrite forallb_forall. intros H Hy.
  specialize (H y). rewrite In_range in H. specialize (H Hy).
  destruct (getitem rows y) as [r | e]; [| discriminate].
  exists r. split; [reflexivity | lia].
Qed.

Lemma getitem_total (r : row) (columns x : Z) :
  columns <= Z.of_nat (length r) -> 0 <= x < columns ->
  exists q, getitem r x = Ok q.
Proof.
  intros Hc Hx. exists (nth (Z.to_nat x) r 0%Q).
  apply getitem_nth. lia.
Qed.

Lemma collect_total lines columns scores geometry minimumTrust :
  well_shaped lines columns scores geometry = true ->
  exists st,
    collect np_cos np_sin lines scores geometry columns minimumTrust [] []
    = Ok st.
Proof.
  intros W. unfold collect. apply for_each_total.
  intros a y Hy. apply In_range in Hy.
  unfold well_shaped in W.
  destruct scores as [| [| s ss] sss]; try discriminate.
  destruct geometry as [| [| g0 [| g1 [| g2 [| g3 [| g4 gs]]]]] gss];
    try discriminate.
  cbn [forallb] in W. rewrite !andb_true_iff in W.
  destruct W as (Ws & W0 & W1 & W2 & W3 & W4 & _).
  destruct (rows_ok_getitem _ _ _ y Ws Hy) as (ds & Eds & Lds).
  destruct (rows_ok_getitem _ _ _ y W0 Hy) as (p0 & E0 & L0).
  destruct (rows_ok_getitem _ _ _ y W1 Hy) as (p1 & E1 & L1).
  destruct (rows_ok_getitem _ _ _ y W2 Hy) as (p2 & E2 & L2).
  destruct (rows_ok_getitem _ _ _ y W3 Hy) as (p3 & E3 & L3).
  destruct (rows_ok_getitem _ _ _ y W4 Hy) as (p4 & E4 & L4).
  set (S := (s :: ss) :: sss).
  set (G := (g0 :: g1 :: g2 :: g3 :: g4 :: gs) :: gss).
  assert (Ts : tensor_row S 0 0 y = getitem s y) by reflexivity.
  assert (T0 : tensor_row G 0 0 y = getitem g0 y) by reflexivity.
  assert (T1 : tensor_row G 0 1 y = getitem g1 y) by reflexivity.
  assert (T2 : tensor_row G 0 2 y = getitem g2 y) by reflexivity.
  assert (T3 : tensor_row G 0 3 y = getitem g3 y) by reflexivity.
  assert (T4 : tensor_row G 0 4 y = getitem g4 y) by reflexivity.
  unfold scan_row, geometryData.
  rewrite Ts, T0, T1, T2, T3, T4, Eds, E0, E1, E2, E3, E4. cbn [bind].
  apply for_each_total. intros b x Hx. apply In_range in Hx.
  destruct (getitem_total ds columns x Lds Hx) as (s0 & Fs).
  destruct (getitem_total p0 columns x L0 Hx) as (d0 & F0).
  destruct (getitem_total p1 columns x L1 Hx) as (d1 & F1).
  destruct (getitem_total p2 columns x L2 Hx) as (d2 & F2).
  destruct (getitem_total p3 columns x L3 Hx) as (d3 & F3).
  destruct (getitem_total p4 columns x L4 Hx) as (ang & F4).
  unfold scan_cell, geometryCalculations.
  rewrite Fs. cbn [bind].
  destruct (float_lt s0 minimumTrust); [now eexists |].
  rewrite F4, F0, F2, F1, F3. cbn [bind]. now eexists.
Qed.

End Thresholds.

(** C6.  For thresholds [t1 < t2] and the same confidence and geometry
    maps, every (box, score) candidate that the collector produces with
    [t2] it also produces with [t1]; on maps of the grid's shape the
    collector completes for both thresholds. *)
Theorem collect_threshold_monotone :
  forall (np_cos np_sin : Q -> Q) (lines columns : Z)
         (scores geometry : tensor) (t1 t2 : Q),
    (t1 < t2)%Q ->
    (forall st1 st2,
        collect np_cos np_sin lines scores geometry columns t1 [] []
        = Ok st1 ->
        collect np_cos np_sin lines scores geometry columns t2 [] []
        = Ok st2 ->
        forall (b : box) (s : Q),
          In (b, s) (combine (boxs st2) (trust st2)) ->
          In (b, s) (combine (boxs st1) (trust st1)))
    /\ (well_shaped lines columns scores geometry = true ->
        exists st1 st2,
          collect np_cos np_sin lines scores geometry columns t1 [] []
          = Ok st1
          /\ collect np_cos np_sin lines scores geometry columns t2 [] []
             = Ok st2).
Proof.
  intros np_cos np_sin lines columns scores geometry t1 t2 Ht. split.
  - intros st1 st2 E1 E2 b s.
    apply (collect_covers np_cos np_sin _ _ _ _ _ _ _ _ Ht E1 E2).
  - intros W.
    destruct (collect_total np_cos np_sin lines columns scores geometry
                t1 W) as (st1 & E1).
    destruct (collect_total np_cos np_sin lines columns scores geometry
                t2 W) as (st2 & E2).
    now exists st1, st2.
Qed.

(** C6 on a row of two cells with scores 0.95 and 0.5, thresholds 0.4 and
    0.9: the candidate of the higher threshold is one of the two candidates
    of the lower one. *)
Lemma collect_threshold_monotone_witness :
  In ((-1, -2, 3, 4), 19 # 20)
     (combine [(-1, -2, 3, 4); (3, -1, 5, 1)] [19 # 20; 1 # 2]%Q)
  /\ exists st1 st2,
       collect cos_poly sin_poly 1 [[[[19 # 20; 1 # 2]]]]%Q
         [[[[2; 1]]; [[3; 1]]; [[4; 1]]; [[1; 1]]; [[0; 0]]]]%Q 2 (2 # 5)
         [] [] = Ok st1
       /\ collect cos_poly sin_poly 1 [[[[19 # 20; 1 # 2]]]]%Q
            [[[[2; 1]]; [[3; 1]]; [[4; 1]]; [[1; 1]]; [[0; 0]]]]%Q 2
            (9 # 10) [] [] = Ok st2.
Proof.
  destruct (collect_threshold_monotone cos_poly sin_poly 1 2
              [[[[19 # 20; 1 # 2]]]]%Q
              [[[[2; 1]]; [[3; 1]]; [[4; 1]]; [[1; 1]]; [[0; 0]]]]%Q
              (2 # 5) (9 # 10) eq_refl) as [Incl Total].
  split.
  - apply (Incl {| trust := [19 # 20; 1 # 2]%Q;
                   boxs := [(-1, -2, 3, 4); (3, -1, 5, 1)];
                   coords := Some (3, -1, 5, 1) |}
                {| trust := [19 # 20]%Q; boxs := [(-1, -2, 3, 4)];
                   coords := Some (-1, -2, 3, 4) |}).
    + reflexivity.
    + reflexivity.
    + simpl. now left.
  - apply Total. reflexivity.
Defined.

Example collect_two_cells_low :
  collect cos_poly sin_poly 1 [[[[19 # 20; 1 # 2]]]]%Q
    [[[[2; 1]]; [[3; 1]]; [[4; 1]]; [[1; 1]]; [[0; 0]]]]%Q 2 (2 # 5) [] []
  = Ok {| trust := [19 # 20; 1 # 2]%Q;
          boxs := [(-1, -2, 3, 4); (3, -1, 5, 1)];
          coords := Some (3, -1, 5, 1) |}.
Proof. reflexivity. Qed.

Example collect_two_cells_high :
  collect cos_poly sin_poly 1 [[[[19 # 20; 1 # 2]]]]%Q
    [[[[2; 1]]; [[3; 1]]; [[4; 1]]; [[1; 1]]; [[0; 0]]]]%Q 2 (9 # 10) [] []
  = Ok {| trust := [19 # 20]%Q; boxs := [(-1, -2, 3, 4)];
          coords := Some (-1, -2, 3, 4) |}.
Proof. reflexivity. Qed.

(** ** Non-max suppression (C4) *)


Section SuppressionProperties.

Variable overlap : box -> box -> Q.
Variable overlapThresh : Q.

Lemma insert_incl (c : NMS.scored) (l : list NMS.scored) :
  incl (NMS.insert c l) (c :: l).
Proof.
  induction l as [| d l IH]; simpl.
  - apply incl_refl.
  - destruct (float_lt (snd c) (snd d)); [| apply incl_refl].
    intros x [<- | Hx]; [right; now left |].
    destruct (IH x Hx) as [<- | Hl]; [now left | right; now right].
Qed.

Lemma sort_desc_incl (l : list NMS.scored) : incl (NMS.sort_desc l) l.
Proof.
  induction l as [| c l IH]; simpl; [apply incl_refl |].
  intros x Hx. destruct (insert_incl c _ x Hx) as [<- | Hl].
  - now left.
  - right. now apply IH.
Qed.

(** The greedy loop keeps boxes of its input only. *)
Lemma greedy_incl (l : list NMS.scored) :
  incl (NMS.greedy overlap overlapThresh l) l.
Proof.
  funelim (NMS.greedy overlap overlapThresh l).
  - apply incl_refl.
  - intros x [<- | Hx]; [now left | right].
    match goal with IH : incl _ (filter _ _) |- _ => apply IH in Hx end.
    now apply filter_In in Hx.
Qed.

(** Each kept box left every later kept box in place: the overlap of the
    later one with it does not exceed the threshold. *)
Lemma greedy_pairwise (l : list NMS.scored) :
  ForallOrdPairs
    (fun kept later => (overlap (fst kept) (fst later) <= overlapThresh)%Q)
    (NMS.greedy overlap overlapThresh l).
Proof.
  funelim (NMS.greedy overlap overlapThresh l).
  - constructor.
  - constructor; [| assumption].
    apply Forall_forall. intros x Hx.
    apply greedy_incl, filter_In in Hx. destruct Hx as [_ Hs].
    unfold NMS.survives, NMS.exceeds in Hs.
    apply negb_true_iff, float_lt_false in Hs. exact Hs.
Qed.

Lemma ForallOrdPairs_map {A B} (f : A -> B) (R : B -> B -> Prop)
    (l : list A) :
  ForallOrdPairs (fun a b => R (f a) (f b)) l ->
  ForallOrdPairs R (map f l).
Proof.
  induction 1 as [| a l Ha _ IH]; simpl; constructor; [| exact IH].
  apply Forall_map. exact Ha.
Qed.

End SuppressionProperties.

(** C4 (as amended; suppression as the specification describes it).  The
    output of non-max suppression holds boxes of its input only, and for
    any two boxes in the output, the overlap ratio of the later-kept one
    with the earlier-kept one does not exceed the suppression threshold; it
    may be equal to it. *)
Theorem non_max_suppression_sound :
  forall (overlap : box -> box -> Q) (overlapThresh : Q)
         (boxes : list box) (probs : list Q),
    incl (NMS.non_max_suppression overlap overlapThresh boxes probs) boxes
    /\ ForallOrdPairs
         (fun kept later => (overlap kept later <= overlapThresh)%Q)
         (NMS.non_max_suppression overlap overlapThresh boxes probs).
Proof.
  intros overlap overlapThresh boxes probs.
  unfold NMS.non_max_suppression. split.
  - intros b Hb. apply in_map_iff in Hb as ([b' s] & <- & Hb).
    apply greedy_incl, sort_desc_incl in Hb.
    now apply in_combine_l in Hb.
  - apply ForallOrdPairs_map, greedy_pairwise.
Qed.

(** C4 as stated fails: with the threshold 0.3, the boxes (0,0,10,10) and
    (7,0,17,10) both survive, and the overlap ratio of the second with the
    first is 30/100, equal to the threshold and so not strictly below it
    (nor is the ratio taken the other way round). *)
Lemma non_max_suppression_overlap_at_threshold :
  NMS.non_max_suppression overlap_of_candidate (3 # 10)
    [(0, 0, 10, 10); (7, 0, 17, 10)] [9 # 10; 4 # 5]%Q
  = [(0, 0, 10, 10); (7, 0, 17, 10)]
  /\ ~ (overlap_of_candidate (0, 0, 10, 10)%Z (7, 0, 17, 10)%Z < 3 # 10)%Q
  /\ ~ (overlap_of_candidate (7, 0, 17, 10)%Z (0, 0, 10, 10)%Z < 3 # 10)%Q.
Proof.
  split; [reflexivity |].
  split; intros H; vm_compute in H; discriminate.
Qed.

(** ** ROI extraction (C2, C3, C8, C9, C10) *)

(** A slice whose two bounds are not negative is the span clipped to the
    length of the sequence. *)
Lemma slice_nonneg {A} (l : list A) (start stop : Z) :
  0 <= start -> 0 <= stop ->
  slice l start stop
  = span l (Z.max 0 start) (Z.min stop (Z.of_nat (length l))).
Proof.
  intros Ha Hb. unfold slice, slice_index, span.
  destruct (start <? 0) eqn:Ea; [lia |].
  destruct (stop <? 0) eqn:Eb; [lia |].
  rewrite (Z.max_r 0 start) by lia.
  destruct (Z.le_gt_cases start (Z.of_nat (length l))) as [Le | Gt].
  - now rewrite (Z.min_l start) by lia.
  - rewrite (Z.min_r start) by lia.
    rewrite !skipn_all2 by lia. now rewrite !firstn_nil.
Qed.

Lemma firstn_incl {A} (n : nat) (l : list A) : incl (firstn n l) l.
Proof.
  intros x Hx. rewrite <- (firstn_skipn n l). apply in_or_app. now left.
Qed.

Lemma skipn_incl {A} (n : nat) (l : list A) : incl (skipn n l) l.
Proof.
  intros x Hx. rewrite <- (firstn_skipn n l). apply in_or_app. now right.
Qed.

Lemma span_incl {A} (l : list A) (lo hi : Z) : incl (span l lo hi) l.
Proof.
  intros x Hx. unfold span in Hx.
  apply firstn_incl in Hx. eapply skipn_incl, Hx.
Qed.

(** A crop holds pixels of the image only, each row of the crop taken from
    one row of the image. *)
Lemma crop_within (img : image) (r0 r1 c0 c1 : Z) (line : list pixel) :
  In line (crop img r0 r1 c0 c1) ->
  exists source, In source img /\ incl line source.
Proof.
  unfold crop. intros H. apply in_map_iff in H as (source & <- & Hs).
  exists source. split.
  - eapply span_incl, Hs.
  - apply span_incl.
Qed.

Lemma crop_nonneg (img : image) (r0 r1 c0 c1 : Z) :
  0 <= r0 -> 0 <= r1 -> 0 <= c0 -> 0 <= c1 ->
  crop img r0 r1 c0 c1 = clipped_crop img r0 r1 c0 c1.
Proof.
  intros. unfold crop, clipped_crop.
  rewrite slice_nonneg by assumption.
  apply map_ext. intros line. now apply slice_nonneg.
Qed.

Section ROIProperties.

Variable cv2_rectangle : image -> Z * Z -> Z * Z -> pixel -> Z -> image.
Variable cv2_resize : image -> Q -> Q -> interpolation -> result image.

Lemma roi_step_eq img pw ph margin st d :
  roi_step cv2_rectangle img pw ph margin st d
  = {| bkpImg := draw_box cv2_rectangle pw ph margin (bkpImg st) d;
       regionOfInterest := Some (crop_box pw ph margin img d) |}.
Proof.
  unfold roi_step, draw_box, crop_box.
  now destruct (rescale d pw ph) as [[[sx sy] ex] ey].
Qed.


(** After the loop [regionOfInterest] is the crop of the last detection,
    cut out of the image as it was on entry. *)
Lemma roi_loop_last img earlier last pw ph margin :
  regionOfInterest
    (roi_loop cv2_rectangle img (earlier ++ [last]) pw ph margin)
  = Some (crop_box pw ph margin img last).
Proof.
  unfold roi_loop. rewrite fold_left_app. simpl.
  now rewrite roi_step_eq.
Qed.

End ROIProperties.

(** Where the slicing of [extractAndDrawROI] agrees with clipping: the
    crop taken for a box comes out of the image (a slice reads no position
    outside it), and when the four bounds of the rescaled, margin-expanded
    rectangle are not negative, also when the rectangle extends past the
    right or the bottom edge, the crop is that rectangle clipped to
    [0, originalWidth) x [0, originalHeight). *)
Theorem extractAndDrawROI_crop_clipped :
  forall (cv2_rectangle : image -> Z * Z -> Z * Z -> pixel -> Z -> image)
         (img : image) (earlier : list box) (d : box)
         (proportionW proportionH : Q) (margin : Z)
         (startX startY endX endY : Z),
    rescale d proportionW proportionH = (startX, startY, endX, endY) ->
    exists roi,
      regionOfInterest
        (roi_loop cv2_rectangle img (earlier ++ [d])
           proportionW proportionH margin) = Some roi
      /\ (forall line, In line roi ->
            exists source, In source img /\ incl line source)
      /\ (0 <= startX - margin -> 0 <= startY - margin ->
          0 <= endX + margin -> 0 <= endY + margin ->
          roi = clipped_crop img (startY - margin) (endY + margin)
                                 (startX - margin) (endX + margin)).
Proof.
  intros cv2_rectangle img earlier d pw ph margin sx sy ex ey E.
  exists (crop img (sy - margin) (ey + margin) (sx - margin) (ex + margin)).
  split; [| split].
  - rewrite roi_loop_last. unfold crop_box. now rewrite E.
  - apply crop_within.
  - intros. now apply crop_nonneg.
Qed.

(** On the 4x4 image the box (2,2,5,5) with margin 1 reaches rows and
    columns 1 to 5; the crop is the 3x3 block of rows and columns 1 to
    3. *)
Lemma extractAndDrawROI_crop_clipped_witness :
  regionOfInterest (roi_loop draw_outline image4 [(2, 2, 5, 5)] 1 1 1)
  = Some (clipped_crop image4 1 6 1 6)
  /\ clipped_crop image4 1 6 1 6
     = [[(1, 1, 0); (1, 2, 0); (1, 3, 0)];
        [(2, 1, 0); (2, 2, 0); (2, 3, 0)];
        [(3, 1, 0); (3, 2, 0); (3, 3, 0)]].
Proof.
  destruct (extractAndDrawROI_crop_clipped draw_outline image4 []
              (2, 2, 5, 5) 1 1 1 2 2 5 5 eq_refl)
    as (roi & Eroi & _ & Eclip).
  split; [| reflexivity].
  transitivity (Some roi); [exact Eroi |].
  f_equal. apply Eclip; lia.
Defined.

(** A bound below 0 is not clipped: for the box (1,1,2,2) and margin 2
    the expanded rectangle spans rows and columns -1 to 3; clipped to the
    4x4 image it is the whole image, but the crop taken is the single
    pixel of row 3, column 3, the bound -1 being counted from the far
    edge. *)
Lemma extractAndDrawROI_crop_not_clipped :
  regionOfInterest (roi_loop draw_outline image4 [(1, 1, 2, 2)] 1 1 2)
  = Some [[(3, 3, 0)]]
  /\ clipped_crop image4 (1 - 2) (2 + 2) (1 - 2) (2 + 2) = image4
  /\ [[(3, 3, 0)]] <> image4.
Proof.
  split; [reflexivity |]. split; [reflexivity |]. discriminate.
Qed.

(** C2 (what the code does).  [extractAndDrawROI] does not clip: a box
    less than [margin] pixels below the top edge gives the slice a first
    row below 0, which is counted from the bottom edge.  When the box ends
    above that row, the crop has no row at all, where the rectangle clipped
    to [0, originalWidth) x [0, originalHeight) has [endY + margin] rows. *)
Theorem extractAndDrawROI_negative_bound_wraps :
  forall (cv2_rectangle : image -> Z * Z -> Z * Z -> pixel -> Z -> image)
         (img : image) (earlier : list box) (d : box)
         (proportionW proportionH : Q) (margin : Z)
         (startX startY endX endY : Z),
    rescale d proportionW proportionH = (startX, startY, endX, endY) ->
    startY - margin < 0 ->
    0 <= endY + margin <= Z.of_nat (length img) + (startY - margin) ->
    regionOfInterest
      (roi_loop cv2_rectangle img (earlier ++ [d])
         proportionW proportionH margin) = Some []
    /\ Z.of_nat
         (length (clipped_crop img (startY - margin) (endY + margin)
                                   (startX - margin) (endX + margin)))
       = endY + margin.
Proof.
  intros cv2_rectangle img earlier d pw ph margin sx sy ex ey E Hneg Hend.
  split.
  - rewrite roi_loop_last. unfold crop_box. rewrite E. f_equal.
    unfold crop, slice, slice_index, span.
    destruct (sy - margin <? 0) eqn:Ea; [| lia].
    destruct (ey + margin <? 0) eqn:Eb; [lia |].
    replace (Z.to_nat _) with 0%nat by lia. reflexivity.
  - unfold clipped_crop, span.
    rewrite length_map, length_firstn, length_skipn. lia.
Qed.

(** C2 on a 20x20 image with the margin 5 of [main]: the box (2,2,4,4)
    reaches rows -3 to 8; the slice starts at row 17 and is empty, the
    clipped rectangle has 9 rows. *)
Lemma extractAndDrawROI_negative_bound_wraps_witness :
  regionOfInterest
    (roi_loop draw_outline (plain_image 20 20) ([] ++ [(2, 2, 4, 4)])
       1 1 5) = Some []
  /\ Z.of_nat
       (length (clipped_crop (plain_image 20 20) (2 - 5) (4 + 5)
                             (2 - 5) (4 + 5)))
     = 4 + 5.
Proof.
  apply (extractAndDrawROI_negative_bound_wraps draw_outline
           (plain_image 20 20) [] (2, 2, 4, 4) 1 1 5 2 2 4 4).
  - reflexivity.
  - lia.
  - vm_compute. split; discriminate.
Defined.

(** With a resize that fails on an empty source, as [cv2.resize] does, the
    call ends with the exception; [main] does not reach its "empty ROI"
    report. *)
Example extractAndDrawROI_empty_crop_raises :
  snd (extractAndDrawROI draw_outline resize_identity (plain_image 20 20)
         [(2, 2, 4, 4)] 1 1 0 0 0 0 5)
  = Raise Cv2Error.
Proof. vm_compute. reflexivity. Qed.


Example extractAndDrawROI_two_boxes :
  extractAndDrawROI draw_outline resize_identity image4
    [(0, 0, 1, 1); (2, 1, 4, 3)] 1 1 0 0 0 0 0
  = ([[(0, 255, 0); (0, 255, 0); (0, 2, 0); (0, 3, 0)];
      [(0, 255, 0); (0, 255, 0); (0, 255, 0); (0, 255, 0)];
      [(2, 0, 0); (2, 1, 0); (0, 255, 0); (2, 3, 0)];
      [(3, 0, 0); (3, 1, 0); (0, 255, 0); (0, 255, 0)]],
     Ok [[(1, 2, 0); (1, 3, 0)]; [(2, 2, 0); (2, 3, 0)]]).
Proof. reflexivity. Qed.


(** The rounding of the product is part of the result: with the ratio
    [3 / 320.0], a float64 just below the real 3/320, the coordinate 320
    is rescaled to 3 by the machine, as [int(320 * (3 / 320.0))] is 3 in
    Python; the product without rounding is truncated to 2. *)
Example rescale_rounds_the_product :
  Machine.rescale (Machine.numpy2 cos_poly sin_poly)
    (0, 0, 320, 2) (5404319552844595 # 576460752303423488) 1
  = (0, 0, 3, 2)
  /\ rescale (0, 0, 320, 2) (5404319552844595 # 576460752303423488) 1
     = (0, 0, 2, 2).
Proof. split; vm_compute; reflexivity. Qed.



(** C10.  Called with no detection, [extractAndDrawROI] never binds
    [regionOfInterest], and the statement that upscales it raises
    [UnboundLocalError] instead of returning an empty result; the input
    image is left as it was.  [main] does not get there: when the
    detections it received are empty it prints its "no text region" warning
    and returns. *)
Theorem extractAndDrawROI_needs_a_detection :
  forall (cv2_rectangle : image -> Z * Z -> Z * Z -> pixel -> Z -> image)
         (cv2_resize : image -> Q -> Q -> interpolation -> result image)
         (imageToString : image -> string -> string -> result string)
         (bkpImg0 : image) (proportionW proportionH : Q)
         (startX startY endX endY margin : Z),
    regionOfInterest
      (roi_loop cv2_rectangle bkpImg0 [] proportionW proportionH margin)
    = None
    /\ extractAndDrawROI cv2_rectangle cv2_resize bkpImg0 []
         proportionW proportionH startX startY endX endY margin
       = (bkpImg0, Raise UnboundLocalError)
    /\ main_report cv2_rectangle cv2_resize imageToString
         bkpImg0 proportionW proportionH (startX, startY, endX, endY, [])
       = (bkpImg0,
          Ok ["[WARN] Nenhuma região de texto detectada."%string]).
Proof.
  intros. repeat split.
Qed.

(** * Further properties of the detection stage *)

(** ** Extent of a decoded box *)

Lemma int_minus_bounds (e : Z) (w : Q) :
  e - Qceiling w <= int (inject_Z e - w)%Q <= e - Qfloor w.
Proof.
  split.
  - rewrite <- (int_inject_Z (e - Qceiling w)). apply int_le.
    unfold Z.sub. rewrite inject_Z_plus, inject_Z_opp.
    apply Qplus_le_r, Qopp_le_compat, Qle_ceiling.
  - rewrite <- (int_inject_Z (e - Qfloor w)). apply int_le.
    unfold Z.sub. rewrite inject_Z_plus, inject_Z_opp.
    apply Qplus_le_r, Qopp_le_compat, Qfloor_le.
Qed.

(** X1.  The width [endX - startX] of the box that [geometryCalculations]
    returns is the sum [xData1[x] + xData3[x]] rounded down or up to an
    integer, and its height [endY - startY] is [xData0[x] + xData2[x]]
    rounded down or up, whatever the angle and the cell. *)
Theorem geometryCalculations_extent :
  forall (np_cos np_sin : Q -> Q)
         (angleData xData0 xData1 xData2 xData3 : row) (x y : Z)
         (startX startY endX endY : Z) (d0 d1 d2 d3 : Q),
    geometryCalculations np_cos np_sin
      angleData xData0 xData1 xData2 xData3 x y
    = Ok (startX, startY, endX, endY) ->
    getitem xData0 x = Ok d0 -> getitem xData1 x = Ok d1 ->
    getitem xData2 x = Ok d2 -> getitem xData3 x = Ok d3 ->
    Qfloor (d1 + d3) <= endX - startX <= Qceiling (d1 + d3)
    /\ Qfloor (d0 + d2) <= endY - startY <= Qceiling (d0 + d2).
Proof.
  intros np_cos np_sin angleData xData0 xData1 xData2 xData3 x y
         sx sy ex ey d0 d1 d2 d3 E E0 E1 E2 E3.
  apply geometryCalculations_Ok in E
    as (angle & e0 & e1 & e2 & e3 & _ & F0 & F1 & F2 & F3 & E).
  rewrite E0 in F0. rewrite E1 in F1. rewrite E2 in F2. rewrite E3 in F3.
  injection F0 as <-. injection F1 as <-.
  injection F2 as <-. injection F3 as <-.
  cbv zeta in E. injection E as -> -> -> ->.
  match goal with
  | |- context [int (inject_Z ?a - (d1 + d3))%Q] =>
      pose proof (int_minus_bounds a (d1 + d3)%Q) as Hx
  end.
  match goal with
  | |- context [int (inject_Z ?a - (d0 + d2))%Q] =>
      pose proof (int_minus_bounds a (d0 + d2)%Q) as Hy
  end.
  lia.
Qed.

(** X1 on a cell of column 3, row 2: the sums are 11.25 and
    4, the box (7,5,19,9) is 12 wide and 4 high. *)
Lemma geometryCalculations_extent_witness :
  (11 <= 19 - 7 <= 12) /\ (4 <= 9 - 5 <= 4).
Proof.
  apply (geometryCalculations_extent cos_poly sin_poly
           [0; 0; 0; 0]%Q [1; 1; 1; 5 # 2]%Q [1; 1; 1; 29 # 4]%Q
           [1; 1; 1; 3 # 2]%Q [1; 1; 1; 4]%Q 3 2 7 5 19 9
           (5 # 2) (29 # 4) (3 # 2) 4%Q); reflexivity.
Defined.

(** ** What the collector appends *)

Section CollectorProperties.

Variables np_cos np_sin : Q -> Q.

Lemma collect_appended
    lines scores geometry columns minimumTrust trust0 boxs0 st :
  collect np_cos np_sin lines scores geometry columns minimumTrust
    trust0 boxs0 = Ok st ->
  appended minimumTrust trust0 boxs0 st.
Proof.
  intros E.
  apply (collect_invariant np_cos np_sin
           (appended minimumTrust trust0 boxs0)) in E; [exact E | |].
  - intros y ds [[[[a p0] p1] p2] p3] s x s' _ Hs S.
    apply scan_cell_Ok in S as (q & _ & [[_ ->] | [F (b & _ & ->)]]).
    + exact Hs.
    + destruct Hs as (ts & bs & Et & Eb & L & Fa & _).
      exists (ts ++ [q]), (bs ++ [b]). simpl.
      rewrite Et, Eb, <- !app_assoc, !length_app, L, rev_app_distr.
      repeat split.
      apply Forall_app. split; [exact Fa |].
      constructor; [| constructor]. now apply float_lt_false.
  - exists [], []. simpl. rewrite !app_nil_r. repeat split. constructor.
Qed.

End CollectorProperties.

(** What the collector does in the machine's arithmetic. *)

Lemma machine_scan_cell_Ok (A : Machine.arithmetic) minimumTrust dataScores
    planes y st x st' :
  Machine.scan_cell A minimumTrust dataScores planes y st x = Ok st' ->
  exists s, getitem dataScores x = Ok s /\
    ((Machine.score_lt A s minimumTrust = true /\ st' = st) \/
     (Machine.score_lt A s minimumTrust = false /\
      exists b,
        st' = {| trust := trust st ++ [s]; boxs := boxs st ++ [b];
                 coords := Some b |})).
Proof.
  unfold Machine.scan_cell. intros E.
  apply bind_Ok in E as (s & Es & E). exists s. split; [exact Es |].
  destruct (Machine.score_lt A s minimumTrust).
  - left. split; [reflexivity |]. now injection E.
  - right. split; [reflexivity |].
    destruct planes as [[[[a p0] p1] p2] p3].
    apply bind_Ok in E as (b & _ & E). exists b. now injection E.
Qed.

Lemma machine_collect_invariant (A : Machine.arithmetic)
    (P : locals -> Prop)
    lines scores geometry columns minimumTrust trust0 boxs0 st :
  (forall y dataScores planes a x a',
      P a ->
      Machine.scan_cell A minimumTrust dataScores planes y a x = Ok a' ->
      P a') ->
  P {| trust := trust0; boxs := boxs0; coords := None |} ->
  Machine.collect A lines scores geometry columns minimumTrust
    trust0 boxs0 = Ok st ->
  P st.
Proof.
  intros Step H0. unfold Machine.collect.
  apply for_each_invariant; [| exact H0].
  intros a y a' _ Ha E. unfold Machine.scan_row in E.
  apply bind_Ok in E as (dataScores & _ & E).
  apply bind_Ok in E as (planes & _ & E).
  revert E. apply for_each_invariant; [| exact Ha].
  intros b x b' _. now apply Step.
Qed.

(** X2.  The collector only appends: when it completes, the caller's
    [trust] and [boxs] entries are still in front, as many scores as boxes
    have been appended behind them, and every appended score is one for
    which the test [score < minimumTrust], as the machine evaluates it,
    was false. *)
Theorem collect_appends_only :
  forall (A : Machine.arithmetic) (lines : Z) (scores geometry : tensor)
         (columns : Z) (minimumTrust : Q) (trust0 : list Q)
         (boxs0 : list box) (st : locals),
    Machine.collect A lines scores geometry columns minimumTrust
      trust0 boxs0 = Ok st ->
    exists (ts : list Q) (bs : list box),
      trust st = trust0 ++ ts /\ boxs st = boxs0 ++ bs
      /\ length ts = length bs
      /\ Forall (fun s => Machine.score_lt A s minimumTrust = false) ts.
Proof.
  intros A lines scores geometry columns minimumTrust trust0 boxs0 st E.
  apply (machine_collect_invariant A
           (fun st =>
              exists (ts : list Q) (bs : list box),
                trust st = trust0 ++ ts /\ boxs st = boxs0 ++ bs
                /\ length ts = length bs
                /\ Forall
                     (fun s => Machine.score_lt A s minimumTrust = false)
                     ts)) in E; [exact E | |].
  - intros y ds planes s x s' Hs S.
    apply machine_scan_cell_Ok in S
      as (q & _ & [[_ ->] | [F (b & ->)]]); [exact Hs |].
    destruct Hs as (ts & bs & Et & Eb & L & Fa).
    exists (ts ++ [q]), (bs ++ [b]). simpl.
    rewrite Et, Eb, <- !app_assoc, !length_app, L.
    split; [reflexivity |]. split; [reflexivity |].
    split; [reflexivity |].
    apply Forall_app. split; [exact Fa |]. now repeat constructor.
  - exists [], []. simpl. rewrite !app_nil_r. repeat split. constructor.
Qed.

(** X2 on one cell whose score is [float32(0.9)], with the threshold 0.9
    of [main] (a float64) and NumPy 2's rules: the threshold is rounded to
    float32 for the test, the test is false and the score is appended
    behind the caller's, although it is below the threshold as a number. *)
Lemma collect_appends_only_witness :
  (exists (ts : list Q) (bs : list box),
     [1; 7549747 # 8388608]%Q = [1%Q] ++ ts
     /\ [(0, 0, 1, 1); (-1, -2, 3, 4)] = [(0, 0, 1, 1)] ++ bs
     /\ length ts = length bs
     /\ Forall
          (fun s =>
             Machine.score_lt (Machine.numpy2 cos_poly sin_poly) s
               (8106479329266893 # 9007199254740992) = false) ts)
  /\ (7549747 # 8388608 < 8106479329266893 # 9007199254740992)%Q.
Proof.
  split; [| reflexivity].
  apply (collect_appends_only (Machine.numpy2 cos_poly sin_poly) 1
           (one_cell_scores (7549747 # 8388608))
           (one_cell_geometry 2 3 4 1 0) 1
           (8106479329266893 # 9007199254740992) [1%Q] [(0, 0, 1, 1)]
           {| trust := [1; 7549747 # 8388608]%Q;
              boxs := [(0, 0, 1, 1); (-1, -2, 3, 4)];
              coords := Some (-1, -2, 3, 4) |}).
  vm_compute. reflexivity.
Defined.

(** X3.  When [generateTextBoundingBoxes] returns, the coordinates it
    returns next to the detections are those of the last box the collector
    appended, the box of the last cell in scan order that cleared the
    threshold, whether or not that box survived suppression. *)
Theorem generateTextBoundingBoxes_returns_last_candidate :
  forall (np_cos np_sin : Q -> Q) (overlap : box -> box -> Q)
         (overlapThresh : Q) (lines : Z) (scores geometry : tensor)
         (columns : Z) (minimumTrust : Q) (trust0 : list Q)
         (boxs0 : list box) (startX startY endX endY : Z)
         (detections : list box),
    generateTextBoundingBoxes np_cos np_sin overlap overlapThresh
      lines scores geometry columns minimumTrust trust0 boxs0
    = Ok (startX, startY, endX, endY, detections) ->
    exists (st : locals) (earlier : list box),
      collect np_cos np_sin lines scores geometry columns minimumTrust
        trust0 boxs0 = Ok st
      /\ boxs st = boxs0 ++ earlier ++ [(startX, startY, endX, endY)].
Proof.
  intros np_cos np_sin overlap overlapThresh lines scores geometry columns
         minimumTrust trust0 boxs0 sx sy ex ey detections E.
  unfold generateTextBoundingBoxes in E.
  apply bind_Ok in E as (st & Ec & E).
  exists st.
  pose proof (collect_appended _ _ _ _ _ _ _ _ _ _ Ec)
    as (ts & bs & _ & Eb & _ & _ & Elast).
  destruct (coords st) as [[[[sx' sy'] ex'] ey'] |]; [| discriminate].
  injection E as -> -> -> -> _.
  destruct (rev bs) as [| b rest] eqn:Er; [discriminate |].
  injection Elast as ->.
  exists (rev rest). split; [exact Ec |].
  rewrite Eb. f_equal.
  rewrite <- (rev_involutive bs), Er. reflexivity.
Qed.

(** X3 on the row of two cells, threshold 0.4: the second cell's box
    (3,-1,5,1) is returned. *)
Lemma generateTextBoundingBoxes_returns_last_candidate_witness :
  exists (st : locals) (earlier : list box),
    collect cos_poly sin_poly 1 [[[[19 # 20; 1 # 2]]]]%Q
      [[[[2; 1]]; [[3; 1]]; [[4; 1]]; [[1; 1]]; [[0; 0]]]]%Q 2 (2 # 5)
      [] [] = Ok st
    /\ boxs st = [] ++ earlier ++ [(3, -1, 5, 1)].
Proof.
  apply (generateTextBoundingBoxes_returns_last_candidate
           cos_poly sin_poly overlap_of_candidate (3 # 10) 1
           [[[[19 # 20; 1 # 2]]]]%Q
           [[[[2; 1]]; [[3; 1]]; [[4; 1]]; [[1; 1]]; [[0; 0]]]]%Q
           2 (2 # 5) [] [] 3 (-1) 5 1
           [(-1, -2, 3, 4); (3, -1, 5, 1)]).
  reflexivity.
Defined.

(** ** Scan order *)

Lemma for_each_app {S A} (body : S -> A -> result S) (xs ys : list A)
    (s : S) :
  for_each body (xs ++ ys) s
  = bind (for_each body xs s) (for_each body ys).
Proof.
  revert s. induction xs as [| v rest IH]; intros s; simpl; [reflexivity |].
  destruct (body s v); simpl; [apply IH | reflexivity].
Qed.

Lemma range_succ (n : Z) : 0 <= n -> range (n + 1) = range n ++ [n].
Proof.
  intros Hn. unfold range.
  replace (Z.to_nat (n + 1)) with (S (Z.to_nat n)) by lia.
  rewrite seq_S, map_app. simpl. now rewrite Z2Nat.id.
Qed.

(** Induction over the iterations of [for k in range(0, n)]. *)
Lemma for_each_range_ind {S} (P : Z -> S -> Prop)
    (body : S -> Z -> result S) (n : Z) (s : S) :
  0 <= n ->
  P 0 s ->
  (forall k a a', 0 <= k < n -> P k a -> body a k = Ok a' -> P (k + 1) a') ->
  forall s', for_each body (range n) s = Ok s' -> P n s'.
Proof.
  intros Hn H0. revert n Hn.
  refine (natlike_ind _ _ _).
  - intros _ s' E. simpl in E. now injection E as <-.
  - intros n Hn IH Step s' E. unfold Z.succ in *.
    rewrite range_succ, for_each_app in E by exact Hn.
    apply bind_Ok in E as (mid & Emid & E). simpl in E.
    apply bind_Ok in E as (a' & Ea & E). injection E as <-.
    apply (Step n mid a'); [lia | | exact Ea].
    apply IH; [| exact Emid].
    intros k a b Hk. apply Step. lia.
Qed.

Lemma getitem_nth_error {A} (l : list A) (i : Z) (a : A) :
  0 <= i -> getitem l i = Ok a -> nth_error l (Z.to_nat i) = Some a.
Proof.
  intros Hi. unfold getitem.
  destruct (i <? 0) eqn:E; [lia |]. rewrite E.
  destruct (nth_error l (Z.to_nat i)); [now intros [= <-] | discriminate].
Qed.

Lemma firstn_snoc {A} (l : list A) (n : nat) (a : A) :
  nth_error l n = Some a -> firstn (S n) l = firstn n l ++ [a].
Proof.
  revert n. induction l as [| x l IH]; intros [| n] E;
    simpl in *; try discriminate.
  - now injection E as <-.
  - f_equal. now apply IH.
Qed.

Section ScanOrder.

Variable A : Machine.arithmetic.

(** One row: its scores for which the test is false are appended from
    left to right. *)
Lemma machine_scan_cells_trust minimumTrust dataScores planes y st st' :
  for_each (Machine.scan_cell A minimumTrust dataScores planes y)
    (range (Z.of_nat (length dataScores))) st = Ok st' ->
  trust st'
  = trust st
    ++ filter (fun s => negb (Machine.score_lt A s minimumTrust))
         dataScores.
Proof.
  intros E.
  set (keep := fun s => negb (Machine.score_lt A s minimumTrust)).
  replace (filter keep dataScores)
    with (filter keep
            (firstn (Z.to_nat (Z.of_nat (length dataScores))) dataScores))
    by now rewrite Nat2Z.id, firstn_all.
  revert st' E.
  apply (for_each_range_ind
           (fun k s => trust s
                       = trust st
                         ++ filter keep (firstn (Z.to_nat k) dataScores)));
    [lia | simpl; now rewrite app_nil_r |].
  intros k s s' Hk IH S.
  apply machine_scan_cell_Ok in S as (q & Eq & C).
  apply getitem_nth_error in Eq; [| lia].
  replace (Z.to_nat (k + 1)) with (Datatypes.S (Z.to_nat k)) by lia.
  rewrite (firstn_snoc _ _ _ Eq), filter_app. simpl.
  unfold keep at 2.
  destruct C as [[F ->] | [F (b & ->)]]; rewrite F; simpl.
  - now rewrite app_nil_r.
  - now rewrite IH, <- app_assoc.
Qed.

End ScanOrder.

(** X4.  On a score map of [len(rows)] rows of [columns] entries each, the
    scores that the collector appends to [trust] are exactly the scores
    for which the test [score < minimumTrust], as the machine evaluates
    it, is false, in row-major order: row after row, and from left to
    right within a row. *)
Theorem collect_row_major :
  forall (A : Machine.arithmetic) (rows : list row)
         (others : list (list row)) (batch : tensor) (geometry : tensor)
         (columns : Z) (minimumTrust : Q) (trust0 : list Q)
         (boxs0 : list box) (st : locals),
    Forall (fun r => Z.of_nat (length r) = columns) rows ->
    Machine.collect A (Z.of_nat (length rows))
      ((rows :: others) :: batch) geometry columns minimumTrust
      trust0 boxs0 = Ok st ->
    trust st
    = trust0
      ++ filter (fun s => negb (Machine.score_lt A s minimumTrust))
           (concat rows).
Proof.
  intros A rows others batch geometry columns minimumTrust
         trust0 boxs0 st Hrows E.
  set (keep := fun s => negb (Machine.score_lt A s minimumTrust)).
  replace (concat rows)
    with (concat (firstn (Z.to_nat (Z.of_nat (length rows))) rows))
    by now rewrite Nat2Z.id, firstn_all.
  revert st E. unfold Machine.collect.
  apply (for_each_range_ind
           (fun k s => trust s
                       = trust0
                         ++ filter keep
                              (concat (firstn (Z.to_nat k) rows))));
    [lia | simpl; now rewrite app_nil_r |].
  intros k s s' Hk IH S. unfold Machine.scan_row in S.
  apply bind_Ok in S as (ds & Eds & S).
  change (getitem rows k = Ok ds) in Eds.
  apply getitem_nth_error in Eds; [| lia].
  apply bind_Ok in S as (planes & _ & S).
  assert (Hlen : Z.of_nat (length ds) = columns).
  { rewrite Forall_forall in Hrows. eapply Hrows, nth_error_In, Eds. }
  rewrite <- Hlen in S. apply machine_scan_cells_trust in S.
  replace (Z.to_nat (k + 1)) with (Datatypes.S (Z.to_nat k)) by lia.
  rewrite (firstn_snoc _ _ _ Eds), concat_app, filter_app. simpl.
  now rewrite app_nil_r, S, IH, <- app_assoc.
Qed.

(** X4 on a map of two rows of two cells with the threshold 0.9 of [main]
    and NumPy 2's rules: the scores appended are [float32(0.9)], for which
    the test is false, and 0.9375, in scan order. *)
Lemma collect_row_major_witness :
  [7549747 # 8388608; 15 # 16]%Q
  = [] ++ filter
            (fun s =>
               negb (Machine.score_lt (Machine.numpy2 cos_poly sin_poly) s
                       (8106479329266893 # 9007199254740992)))
            (concat [[7549747 # 8388608; 1 # 4]; [1 # 2; 15 # 16]]%Q).
Proof.
  apply (collect_row_major (Machine.numpy2 cos_poly sin_poly)
           [[7549747 # 8388608; 1 # 4]; [1 # 2; 15 # 16]]%Q [] []
           [[[[1; 1]; [1; 1]]; [[1; 1]; [1; 1]]; [[1; 1]; [1; 1]];
             [[1; 1]; [1; 1]]; [[0; 0]; [0; 0]]]]%Q
           2 (8106479329266893 # 9007199254740992) [] []
           {| trust := [7549747 # 8388608; 15 # 16]%Q;
              boxs := [(-1, -1, 1, 1); (3, 3, 5, 5)];
              coords := Some (3, 3, 5, 5) |}).
  - repeat constructor.
  - vm_compute. reflexivity.
Defined.

(** ** Index errors *)

Lemma getitem_Raise {A} (l : list A) (i : Z) (e : exn) :
  getitem l i = Raise e -> e = IndexError.
Proof.
  unfold getitem. destruct (_ <? 0); [now intros [= <-] |].
  destruct (nth_error l _); [discriminate | now intros [= <-]].
Qed.

Lemma bind_Raise {A B} (m : result A) (k : A -> result B) (e : exn) :
  bind m k = Raise e ->
  m = Raise e \/ exists a, m = Ok a /\ k a = Raise e.
Proof.
  destruct m as [a | e']; simpl; intros E.
  - right. now exists a.
  - left. now injection E as ->.
Qed.

Lemma for_each_Raise {S A} (body : S -> A -> result S) (e : exn) :
  forall xs s, for_each body xs s = Raise e ->
               exists a v, In v xs /\ body a v = Raise e.
Proof.
  induction xs as [| v rest IH]; simpl; intros s E; [discriminate |].
  apply bind_Raise in E as [E | (a & Ea & E)].
  - exists s, v. split; [now left | exact E].
  - destruct (IH a E) as (b & w & Hw & Eb).
    exists b, w. split; [now right | exact Eb].
Qed.

(** A loop one of whose iterations raises in every state does not
    complete. *)
Lemma for_each_fails {S A} (body : S -> A -> result S) (v : A) :
  (forall a, exists e, body a v = Raise e) ->
  forall xs s, In v xs -> exists e, for_each body xs s = Raise e.
Proof.
  intros Hv. induction xs as [| w rest IH]; intros s Hin; [destruct Hin |].
  simpl. destruct (body s w) as [a | e] eqn:Eb; simpl.
  - destruct Hin as [-> | Hin]; [| now apply IH].
    destruct (Hv s) as (e & Ee). congruence.
  - now exists e.
Qed.

Section IndexErrors.

Variables np_cos np_sin : Q -> Q.

Lemma tensor_row_Raise (t : tensor) (a b y : Z) (e : exn) :
  tensor_row t a b y = Raise e -> e = IndexError.
Proof.
  unfold tensor_row. intros E.
  apply bind_Raise in E as [E | (n & _ & E)];
    [now apply getitem_Raise in E |].
  apply bind_Raise in E as [E | (c & _ & E)];
    now apply getitem_Raise in E.
Qed.

(** The only exception that leaves the collector is [IndexError]. *)
Lemma collect_Raise
    lines scores geometry columns minimumTrust trust0 boxs0 e :
  collect np_cos np_sin lines scores geometry columns minimumTrust
    trust0 boxs0 = Raise e ->
  e = IndexError.
Proof.
  unfold collect. intros E.
  apply for_each_Raise in E as (a & y & _ & E). unfold scan_row in E.
  apply bind_Raise in E as [E | (ds & _ & E)];
    [now apply tensor_row_Raise in E |].
  apply bind_Raise in E as [E | (planes & _ & E)].
  - unfold geometryData in E.
    repeat (apply bind_Raise in E as [E | (? & _ & E)];
            [now apply tensor_row_Raise in E |]).
    discriminate.
  - apply for_each_Raise in E as (b & x & _ & E).
    unfold scan_cell in E.
    apply bind_Raise in E as [E | (s & _ & E)];
      [now apply getitem_Raise in E |].
    destruct (float_lt s minimumTrust); [discriminate |].
    destruct planes as [[[[ang p0] p1] p2] p3].
    apply bind_Raise in E as [E | (bx & _ & E)]; [| discriminate].
    unfold geometryCalculations in E.
    repeat (apply bind_Raise in E as [E | (? & _ & E)];
            [now apply getitem_Raise in E |]).
    discriminate.
Qed.

End IndexErrors.

(** X5.  Asked to scan more lines than the score map has rows,
    [generateTextBoundingBoxes] raises [IndexError], whatever the threshold
    and the geometry map. *)
Theorem generateTextBoundingBoxes_lines_out_of_range :
  forall (np_cos np_sin : Q -> Q) (overlap : box -> box -> Q)
         (overlapThresh : Q) (lines : Z) (rows : list row)
         (others : list (list row)) (batch : tensor) (geometry : tensor)
         (columns : Z) (minimumTrust : Q) (trust0 : list Q)
         (boxs0 : list box),
    Z.of_nat (length rows) < lines ->
    generateTextBoundingBoxes np_cos np_sin overlap overlapThresh
      lines ((rows :: others) :: batch) geometry columns minimumTrust
      trust0 boxs0
    = Raise IndexError.
Proof.
  intros np_cos np_sin overlap overlapThresh lines rows others batch
         geometry columns minimumTrust trust0 boxs0 Hlines.
  unfold generateTextBoundingBoxes.
  assert (E : exists e,
             collect np_cos np_sin lines ((rows :: others) :: batch)
               geometry columns minimumTrust trust0 boxs0 = Raise e).
  { unfold collect.
    apply (for_each_fails _ (Z.of_nat (length rows))).
    - intros a. exists IndexError. unfold scan_row.
      change (tensor_row ((rows :: others) :: batch) 0 0
                (Z.of_nat (length rows)))
        with (getitem rows (Z.of_nat (length rows))).
      unfold getitem.
      destruct (Z.of_nat (length rows) <? 0) eqn:En; [lia |].
      rewrite En, Nat2Z.id.
      now rewrite (proj2 (nth_error_None rows (length rows)) (le_n _)).
    - apply In_range. lia. }
  destruct E as (e & E).
  pose proof (collect_Raise _ _ _ _ _ _ _ _ _ _ E) as ->.
  now rewrite E.
Qed.

(** X5 on the one-cell map, asked for two lines. *)
Lemma generateTextBoundingBoxes_lines_out_of_range_witness :
  generateTextBoundingBoxes cos_poly sin_poly overlap_of_candidate (3 # 10)
    2 (one_cell_scores (19 # 20)) (one_cell_geometry 2 3 4 1 0)
    1 (9 # 10) [] []
  = Raise IndexError.
Proof.
  apply (generateTextBoundingBoxes_lines_out_of_range
           cos_poly sin_poly overlap_of_candidate (3 # 10)
           2 [[19 # 20]]%Q [] [] (one_cell_geometry 2 3 4 1 0)
           1 (9 # 10) [] []).
  reflexivity.
Defined.

(** * Further properties of ROI extraction *)

Lemma int_mult_le (a b : Z) (p : Q) :
  (0 <= p)%Q -> a <= b -> int (inject_Z a * p)%Q <= int (inject_Z b * p)%Q.
Proof.
  intros Hp Hab. apply int_le, Qmult_le_compat_r; [| exact Hp].
  now rewrite <- Zle_Qle.
Qed.

(** X6.  With ratios that are not negative, rescaling keeps a box
    ordered: [startX <= endX] and [startY <= endY] still hold for the
    rescaled coordinates. *)
Theorem rescale_keeps_order :
  forall (d : box) (proportionW proportionH : Q),
    (0 <= proportionW)%Q -> (0 <= proportionH)%Q ->
    ordered d -> ordered (rescale d proportionW proportionH).
Proof.
  intros [[[sx sy] ex] ey] pw ph Hw Hh [Hx Hy]. simpl.
  split; now apply int_mult_le.
Qed.

(** X6 on the box (3,-1,5,1) with ratios 2.5 and 1.5. *)
Lemma rescale_keeps_order_witness : ordered (7, -1, 12, 1).
Proof.
  apply (rescale_keeps_order (3, -1, 5, 1) (5 # 2) (3 # 2)).
  - discriminate.
  - discriminate.
  - simpl. lia.
Defined.

(** ** Size and contents of a crop *)











(** * Loading the image *)

Lemma and_then_Returns {A B} (m : outcome A) (k : A -> outcome B) (b : B) :
  and_then m k = Returns b -> exists a, m = Returns a /\ k a = Returns b.
Proof.
  destruct m as [a | e]; simpl; [| discriminate].
  intros E. now exists a.
Qed.

Lemma true_div_Returns (a b q : Q) :
  true_div a b = Returns q -> ~ (b == 0)%Q /\ q = (a / b)%Q.
Proof.
  unfold true_div. destruct (Qeq_bool b 0) eqn:E; [discriminate |].
  intros [= <-]. split; [| reflexivity]. now apply Qeq_bool_neq.
Qed.

Lemma true_div_zero (a : Q) (b : Z) :
  b = 0 -> true_div a (inject_Z b) = Raises ZeroDivisionError.
Proof. now intros ->. Qed.

Lemma true_div_nonzero (a : Q) (b : Z) :
  b <> 0 -> true_div a (inject_Z b) = Returns (a / inject_Z b)%Q.
Proof.
  intros Hb. unfold true_div.
  destruct (Qeq_bool (inject_Z b) 0) eqn:E; [| reflexivity].
  apply Qeq_bool_iff in E. unfold Qeq in E. simpl in E. lia.
Qed.

(** X9.  [load_and_prepare_image] on a path that [cv2.imread] cannot read
    ends with [TypeError] (raised while the announced [FileNotFoundError]
    is being built), whatever the target size; on a readable image with a
    target width or height of 0 it ends with [ZeroDivisionError], before
    any resizing. *)
Theorem load_and_prepare_image_errors :
  forall (cv2_imread : string -> option image)
         (cv2_resize_to : image -> Z * Z -> outcome image)
         (path : string) (target_width target_height : Z),
    (cv2_imread path = None ->
     load_and_prepare_image cv2_imread cv2_resize_to
       path target_width target_height = Raises TypeError)
    /\ (forall img, cv2_imread path = Some img ->
          target_width = 0 \/ target_height = 0 ->
          load_and_prepare_image cv2_imread cv2_resize_to
            path target_width target_height = Raises ZeroDivisionError).
Proof.
  intros cv2_imread cv2_resize_to path tw th. split.
  - intros E. unfold load_and_prepare_image, readImageWithOpenCV.
    now rewrite E.
  - intros img E Hz. unfold load_and_prepare_image, readImageWithOpenCV.
    rewrite E. cbn [and_then].
    destruct (Z.eq_dec th 0) as [Hth | Hth].
    + now rewrite true_div_zero.
    + rewrite true_div_nonzero by exact Hth. cbn [and_then].
      destruct Hz as [Htw | Hth']; [| contradiction].
      now rewrite true_div_zero.
Qed.

(** X9 with a reader that knows one file. *)
Lemma load_and_prepare_image_errors_witness :
  load_and_prepare_image
    (fun p => if String.eqb p "caneca.jpg" then Some image4 else None)
    (fun img _ => Returns img) "missing.jpg" 320 320 = Raises TypeError
  /\ load_and_prepare_image
       (fun p => if String.eqb p "caneca.jpg" then Some image4 else None)
       (fun img _ => Returns img) "caneca.jpg" 320 0
     = Raises ZeroDivisionError.
Proof.
  split.
  - apply (load_and_prepare_image_errors
             (fun p => if String.eqb p "caneca.jpg" then Some image4
                       else None)
             (fun img _ => Returns img) "missing.jpg" 320 320).
    reflexivity.
  - apply (load_and_prepare_image_errors
             (fun p => if String.eqb p "caneca.jpg" then Some image4
                       else None)
             (fun img _ => Returns img) "caneca.jpg" 320 0) with image4.
    + reflexivity.
    + now right.
Defined.

Lemma inject_Z_nonneg (z : Z) : 0 <= z -> (0 <= inject_Z z)%Q.
Proof.
  intros Hz. change (inject_Z 0 <= inject_Z z)%Q. now rewrite <- Zle_Qle.
Qed.

Lemma inject_Z_pos (z : Z) : 0 < z -> (0 < inject_Z z)%Q.
Proof.
  intros Hz. change (inject_Z 0 < inject_Z z)%Q. now rewrite <- Zlt_Qlt.
Qed.

Lemma int_ratio_within (x t n : Z) :
  0 < t -> 0 <= n -> 0 <= x <= t ->
  0 <= int (inject_Z x * (inject_Z n / inject_Z t))%Q <= n.
Proof.
  intros Ht Hn Hx.
  assert (Ht' : (0 < inject_Z t)%Q) by now apply inject_Z_pos.
  assert (Hr : (0 <= inject_Z n / inject_Z t)%Q).
  { apply Qle_shift_div_l; [exact Ht' |].
    rewrite Qmult_0_l. now apply inject_Z_nonneg. }
  split.
  - rewrite <- (int_inject_Z 0) at 1. apply int_le.
    apply Qmult_le_0_compat; [| exact Hr]. now apply inject_Z_nonneg.
  - rewrite <- (int_inject_Z n) at 2. apply int_le.
    apply Qle_trans with (inject_Z t * (inject_Z n / inject_Z t))%Q.
    + apply Qmult_le_compat_r; [| exact Hr]. now rewrite <- Zle_Qle.
    + rewrite Qmult_div_r; [apply Qle_refl |].
      intros E. rewrite E in Ht'. now apply Qlt_irrefl in Ht'.
Qed.

(** X10.  With the ratios that [load_and_prepare_image] returns for a
    positive target size, [extractAndDrawROI]'s rescaling maps every box
    inside the detector's frame, [0..target_width] by [0..target_height],
    to a box inside the image that was read, [0..width] by [0..height]. *)
Theorem load_and_prepare_image_rescale_within :
  forall (cv2_imread : string -> option image)
         (cv2_resize_to : image -> Z * Z -> outcome image)
         (path : string) (target_width target_height : Z)
         (img bkp resized : image) (prop_w prop_h : Q)
         (startX startY endX endY : Z),
    load_and_prepare_image cv2_imread cv2_resize_to
      path target_width target_height
    = Returns (img, bkp, resized, prop_w, prop_h) ->
    0 < target_width -> 0 < target_height ->
    0 <= startX <= target_width -> 0 <= endX <= target_width ->
    0 <= startY <= target_height -> 0 <= endY <= target_height ->
    let '(height, width) := shape img in
    let '(startX', startY', endX', endY') :=
      rescale (startX, startY, endX, endY) prop_w prop_h in
    0 <= startX' <= width /\ 0 <= endX' <= width
    /\ 0 <= startY' <= height /\ 0 <= endY' <= height.
Proof.
  intros cv2_imread cv2_resize_to path tw th img bkp resized pw ph
         sx sy ex ey E Htw Hth Hsx Hex Hsy Hey.
  unfold load_and_prepare_image in E.
  apply and_then_Returns in E as (img0 & _ & E).
  apply and_then_Returns in E as (h0 & Eh & E).
  apply and_then_Returns in E as (w0 & Ew & E).
  apply and_then_Returns in E as (r0 & _ & E).
  injection E as -> _ _ -> ->.
  apply true_div_Returns in Eh as [_ ->].
  apply true_div_Returns in Ew as [_ ->].
  destruct (shape img) as [height width] eqn:Es. simpl.
  assert (Hh : 0 <= height).
  { unfold shape in Es. injection Es as <- _. lia. }
  assert (Hw : 0 <= width).
  { unfold shape in Es. injection Es as _ <-. destruct img; lia. }
  repeat split; now apply int_ratio_within.
Qed.

(** X10 on the 4x4 image with the target size 2x2: the whole frame
    (0,0,2,2) becomes the whole image (0,0,4,4). *)
Lemma load_and_prepare_image_rescale_within_witness :
  0 <= 0 <= 4 /\ 0 <= 4 <= 4 /\ 0 <= 0 <= 4 /\ 0 <= 4 <= 4.
Proof.
  apply (load_and_prepare_image_rescale_within
           (fun _ => Some image4) (fun img _ => Returns img)
           "caneca.jpg" 2 2 image4 image4 image4 (4 # 2) (4 # 2)
           0 0 2 2);
    try lia.
  reflexivity.
Defined.

(** * The driver's guard *)

Section Guard.

Variable overlap : box -> box -> Q.
Variable overlapThresh : Q.

Lemma insert_not_nil (c : NMS.scored) (l : list NMS.scored) :
  NMS.insert c l <> [].
Proof.
  destruct l as [| d l]; simpl; [discriminate |].
  destruct (float_lt (snd c) (snd d)); discriminate.
Qed.

(** Suppression keeps at least the best of its candidates. *)
Lemma non_max_suppression_not_nil (boxes : list box) (probs : list Q) :
  boxes <> [] -> probs <> [] ->
  NMS.non_max_suppression overlap overlapThresh boxes probs <> [].
Proof.
  intros Hb Hp. unfold NMS.non_max_suppression.
  destruct boxes as [| b boxes]; [contradiction |].
  destruct probs as [| p probs]; [contradiction |].
  simpl.
  destruct (NMS.insert (b, p) (NMS.sort_desc (combine boxes probs)))
    as [| k rest] eqn:E; [now apply insert_not_nil in E |].
  rewrite NMS.greedy_equation_2. discriminate.
Qed.

End Guard.

(** X11.  [main] never prints its "no text region" warning: whenever
    [generateTextBoundingBoxes] returns to [main], at least one candidate
    was collected and suppression kept at least one box, so the test
    [len(detections) == 0] fails; a map without any candidate ends [main]
    with the exception of [generateTextBoundingBoxes] instead. *)
Theorem main_never_warns_no_text_region :
  forall (np_cos np_sin : Q -> Q) (overlap : box -> box -> Q)
         (overlapThresh : Q)
         (cv2_rectangle : image -> Z * Z -> Z * Z -> pixel -> Z -> image)
         (cv2_resize : image -> Q -> Q -> interpolation -> result image)
         (imageToString : image -> string -> string -> result string)
         (backup : image) (prop_w prop_h : Q) (scores geometry : tensor),
    snd (main np_cos np_sin overlap overlapThresh cv2_rectangle cv2_resize
           imageToString backup prop_w prop_h scores geometry)
    <> Ok ["[WARN] Nenhuma região de texto detectada."%string].
Proof.
  intros np_cos np_sin overlap overlapThresh cv2_rectangle cv2_resize
         imageToString backup prop_w prop_h scores geometry.
  unfold main. destruct (shape_2_4 scores) as [lines columns].
  destruct (generateTextBoundingBoxes _ _ _ _ _ _ _ _ _ _ _)
    as [[[[[sx sy] ex] ey] detections] | e] eqn:E; [| discriminate].
  unfold generateTextBoundingBoxes in E.
  apply bind_Ok in E as (st & Ec & E).
  pose proof (collect_appended _ _ _ _ _ _ _ _ _ _ Ec)
    as (ts & bs & Et & Eb & L & _ & Elast).
  simpl in Et, Eb.
  destruct (coords st) as [[[[sx' sy'] ex'] ey'] |]; [| discriminate].
  injection E as _ _ _ _ <-.
  assert (Hdet : NMS.non_max_suppression overlap overlapThresh
                   (boxs st) (trust st) <> []).
  { apply non_max_suppression_not_nil; rewrite ?Eb, ?Et;
      destruct bs, ts; try discriminate. }
  unfold main_report.
  destruct (NMS.non_max_suppression overlap overlapThresh
              (boxs st) (trust st)) as [| d rest]; [contradiction |].
  cbn [length Z.of_nat Z.eqb].
  destruct (extractAndDrawROI _ _ _ _ _ _ _ _ _ _ _) as [backup' [roi | e]];
    [| discriminate].
  destruct (size roi =? 0); [discriminate |].
  destruct (imageToString roi _ _); discriminate.
Qed.

(** * The preprocessing and annotation modules *)

(** ** Colour inversion *)

(** X12.  On an image of 8-bit values [colorInversion] is its own inverse:
    inverting twice gives the image back. *)
Theorem colorInversion_involutive :
  forall gray : Legacy.gray_image,
    Forall (Forall (fun v => 0 <= v < 256)) gray ->
    Legacy.colorInversion (Legacy.colorInversion gray) = gray.
Proof.
  intros gray H. unfold Legacy.colorInversion.
  rewrite map_map.
  rewrite <- (map_id gray) at 2. apply map_ext_in.
  intros line Hline. rewrite Forall_forall in H. specialize (H line Hline).
  rewrite map_map.
  rewrite <- (map_id line) at 2. apply map_ext_in.
  intros v Hv. rewrite Forall_forall in H. specialize (H v Hv).
  rewrite (Z.mod_small (255 - v)) by lia.
  rewrite Z.mod_small by lia. lia.
Qed.

(** X12 on a 2x2 image. *)
Lemma colorInversion_involutive_witness :
  Legacy.colorInversion (Legacy.colorInversion [[0; 255]; [7; 128]])
  = [[0; 255]; [7; 128]].
Proof.
  apply (colorInversion_involutive [[0; 255]; [7; 128]]).
  repeat constructor; lia.
Defined.

(** ** Fitting an image to the screen *)

Lemma min2_le_l (a b : Q) : (min2 a b <= a)%Q.
Proof.
  unfold min2. destruct (float_lt b a) eqn:E.
  - apply float_lt_true in E. now apply Qlt_le_weak.
  - apply Qle_refl.
Qed.

Lemma min2_le_r (a b : Q) : (min2 a b <= b)%Q.
Proof.
  unfold min2. destruct (float_lt b a) eqn:E.
  - apply Qle_refl.
  - now apply float_lt_false in E.
Qed.

Lemma min2_glb (a b c : Q) : (c <= a)%Q -> (c <= b)%Q -> (c <= min2 a b)%Q.
Proof. intros Ha Hb. unfold min2. now destruct (float_lt b a). Qed.

(** The dimensions that [resizeImageToFitScreen] computes for an image of
    [h] rows and [w] columns. *)
Lemma fit_dimensions (w h max_width max_height : Z) :
  0 < w -> 0 < h ->
  let scale :=
    min2 (min2 (inject_Z max_width / inject_Z w)
               (inject_Z max_height / inject_Z h)) 1 in
  let new_w := int (inject_Z w * scale)%Q in
  let new_h := int (inject_Z h * scale)%Q in
  new_w <= w /\ new_h <= h /\ new_w <= max_width /\ new_h <= max_height
  /\ (0 <= max_width -> 0 <= max_height -> 0 <= new_w /\ 0 <= new_h)
  /\ (w <= max_width -> h <= max_height -> new_w = w /\ new_h = h).
Proof.
  intros Hw Hh scale new_w new_h.
  pose proof (inject_Z_pos w Hw) as Hw'.
  pose proof (inject_Z_pos h Hh) as Hh'.
  assert (Hnz : forall z, (0 < inject_Z z)%Q -> ~ (inject_Z z == 0)%Q).
  { intros z Hz E. rewrite E in Hz. now apply Qlt_irrefl in Hz. }
  assert (S1 : (scale <= 1)%Q) by apply min2_le_r.
  assert (Sa : (scale <= inject_Z max_width / inject_Z w)%Q).
  { eapply Qle_trans; [apply min2_le_l | apply min2_le_l]. }
  assert (Sb : (scale <= inject_Z max_height / inject_Z h)%Q).
  { eapply Qle_trans; [apply min2_le_l | apply min2_le_r]. }
  assert (Up : forall (n m : Z) (bound : Q),
             (0 < inject_Z n)%Q -> (scale <= bound)%Q ->
             (inject_Z n * bound == inject_Z m)%Q ->
             int (inject_Z n * scale)%Q <= m).
  { intros n m bound Hn Hs Eb. rewrite <- (int_inject_Z m). apply int_le.
    rewrite <- Eb. rewrite !(Qmult_comm (inject_Z n)).
    apply Qmult_le_compat_r; [exact Hs | now apply Qlt_le_weak]. }
  split; [| split; [| split; [| split; [| split]]]].
  - apply (Up w w 1%Q); [exact Hw' | exact S1 | apply Qmult_1_r].
  - apply (Up h h 1%Q); [exact Hh' | exact S1 | apply Qmult_1_r].
  - apply (Up w max_width _ Hw' Sa). apply Qmult_div_r. now apply Hnz.
  - apply (Up h max_height _ Hh' Sb). apply Qmult_div_r. now apply Hnz.
  - intros Hmw Hmh.
    assert (S0 : (0 <= scale)%Q).
    { apply min2_glb; [apply min2_glb |]; try discriminate;
        (apply Qle_shift_div_l; [assumption |]); rewrite Qmult_0_l;
        now apply inject_Z_nonneg. }
    split; rewrite <- (int_inject_Z 0); apply int_le;
      apply Qmult_le_0_compat; try exact S0; now apply Qlt_le_weak.
  - intros Hmw Hmh.
    assert (S1' : (1 <= scale)%Q).
    { apply min2_glb; [apply min2_glb |]; try discriminate;
        (apply Qle_shift_div_l; [assumption |]); rewrite Qmult_1_l;
        now rewrite <- Zle_Qle. }
    assert (E1 : (scale == 1)%Q) by now apply Qle_antisym.
    split.
    + transitivity (int (inject_Z w)); [| apply int_inject_Z].
      apply int_comp. rewrite E1. apply Qmult_1_r.
    + transitivity (int (inject_Z h)); [| apply int_inject_Z].
      apply int_comp. rewrite E1. apply Qmult_1_r.
Qed.

Lemma resizeImageToFitScreen_call
    (cv2_resize_to : image -> Z * Z -> interpolation -> outcome image)
    (img : image) (max_width max_height h w : Z) :
  shape img = (h, w) -> 0 < h -> 0 < w ->
  Legacy.resizeImageToFitScreen cv2_resize_to img max_width max_height
  = let scale :=
      min2 (min2 (inject_Z max_width / inject_Z w)
                 (inject_Z max_height / inject_Z h)) 1 in
    cv2_resize_to img
      (int (inject_Z w * scale)%Q, int (inject_Z h * scale)%Q) INTER_AREA.
Proof.
  intros Es Hh Hw. unfold Legacy.resizeImageToFitScreen. rewrite Es.
  rewrite !true_div_nonzero by lia. reflexivity.
Qed.

(** X13.  For an image with at least one row and one column,
    [resizeImageToFitScreen] asks [cv2.resize] for dimensions that exceed
    neither those of the image nor [max_width] by [max_height]: it never
    enlarges, and the result fits the screen.  The dimensions are not
    negative when the maxima are not. *)
Theorem resizeImageToFitScreen_fits :
  forall (cv2_resize_to : image -> Z * Z -> interpolation -> outcome image)
         (img : image) (max_width max_height h w : Z),
    shape img = (h, w) -> 0 < h -> 0 < w ->
    exists new_w new_h,
      Legacy.resizeImageToFitScreen cv2_resize_to img max_width max_height
      = cv2_resize_to img (new_w, new_h) INTER_AREA
      /\ new_w <= w /\ new_h <= h
      /\ new_w <= max_width /\ new_h <= max_height
      /\ (0 <= max_width -> 0 <= max_height -> 0 <= new_w /\ 0 <= new_h).
Proof.
  intros cv2_resize_to img mw mh h w Es Hh Hw.
  rewrite (resizeImageToFitScreen_call _ _ _ _ h w Es Hh Hw). cbv zeta.
  pose proof (fit_dimensions w h mw mh Hw Hh) as F. cbv zeta in F.
  destruct F as (F1 & F2 & F3 & F4 & F5 & _).
  eexists _, _. split; [reflexivity |]. repeat split; auto; now apply F5.
Qed.

(** X13 on the 4x4 image and a screen of 2x3: the image is halved. *)
Lemma resizeImageToFitScreen_fits_witness :
  exists new_w new_h,
    Legacy.resizeImageToFitScreen
      (fun img dim _ => if (fst dim =? 2) && (snd dim =? 2)
                        then Returns img else Raises (Builtin Cv2Error))
      image4 2 3
    = (fun img dim (_ : interpolation) =>
         if (fst dim =? 2) && (snd dim =? 2)
         then Returns img else Raises (Builtin Cv2Error))
        image4 (new_w, new_h) INTER_AREA
    /\ new_w <= 4 /\ new_h <= 4 /\ new_w <= 2 /\ new_h <= 3
    /\ (0 <= 2 -> 0 <= 3 -> 0 <= new_w /\ 0 <= new_h).
Proof.
  apply (resizeImageToFitScreen_fits
           (fun img dim _ => if (fst dim =? 2) && (snd dim =? 2)
                             then Returns img
                             else Raises (Builtin Cv2Error))
           image4 2 3 4 4).
  - reflexivity.
  - lia.
  - lia.
Defined.

(** X14.  An image that already fits is passed to [cv2.resize] with its
    own dimensions: the scale is exactly 1. *)
Theorem resizeImageToFitScreen_keeps_fitting_size :
  forall (cv2_resize_to : image -> Z * Z -> interpolation -> outcome image)
         (img : image) (max_width max_height h w : Z),
    shape img = (h, w) -> 0 < h -> 0 < w ->
    w <= max_width -> h <= max_height ->
    Legacy.resizeImageToFitScreen cv2_resize_to img max_width max_height
    = cv2_resize_to img (w, h) INTER_AREA.
Proof.
  intros cv2_resize_to img mw mh h w Es Hh Hw Hmw Hmh.
  rewrite (resizeImageToFitScreen_call _ _ _ _ h w Es Hh Hw). cbv zeta.
  pose proof (fit_dimensions w h mw mh Hw Hh) as F. cbv zeta in F.
  destruct F as (_ & _ & _ & _ & _ & F).
  destruct (F Hmw Hmh) as [-> ->]. reflexivity.
Qed.

(** X14 on the 4x4 image and the default screen of 800x600. *)
Lemma resizeImageToFitScreen_keeps_fitting_size_witness :
  Legacy.resizeImageToFitScreen
    (fun _ dim _ => Returns [[(fst dim, snd dim, 0)]]) image4 800 600
  = Returns [[(4, 4, 0)]].
Proof.
  apply (resizeImageToFitScreen_keeps_fitting_size
           (fun _ dim _ => Returns [[(fst dim, snd dim, 0)]])
           image4 800 600 4 4).
  - reflexivity.
  - lia.
  - lia.
  - lia.
  - lia.
Defined.

(** X15.  On an image without rows or without columns
    [resizeImageToFitScreen] ends with [ZeroDivisionError]; [cv2.resize] is
    not reached. *)
Theorem resizeImageToFitScreen_empty_image :
  forall (cv2_resize_to : image -> Z * Z -> interpolation -> outcome image)
         (img : image) (max_width max_height h w : Z),
    shape img = (h, w) -> h = 0 \/ w = 0 ->
    Legacy.resizeImageToFitScreen cv2_resize_to img max_width max_height
    = Raises ZeroDivisionError.
Proof.
  intros cv2_resize_to img mw mh h w Es Hz.
  unfold Legacy.resizeImageToFitScreen. rewrite Es.
  destruct (Z.eq_dec w 0) as [Hw | Hw].
  - now rewrite true_div_zero.
  - rewrite true_div_nonzero by exact Hw. cbn [and_then].
    destruct Hz as [Hh | Hw']; [| contradiction].
    now rewrite true_div_zero.
Qed.

(** X15 on an image of two empty rows. *)
Lemma resizeImageToFitScreen_empty_image_witness :
  Legacy.resizeImageToFitScreen (fun img _ _ => Returns img)
    [[]; []] 800 600
  = Raises ZeroDivisionError.
Proof.
  apply (resizeImageToFitScreen_empty_image (fun img _ _ => Returns img)
           [[]; []] 800 600 2 0).
  - reflexivity.
  - now right.
Defined.

(** ** Annotation of the recognized words *)

Lemma lift_Returns {A} (m : result A) (a : A) :
  lift m = Returns a -> m = Ok a.
Proof. destruct m; simpl; [now intros [= ->] | discriminate]. Qed.

Lemma for_all_invariant {S A} (P : S -> Prop)
    (body : S -> A -> outcome S) :
  forall xs s s',
    (forall a v a', In v xs -> P a -> body a v = Returns a' -> P a') ->
    P s -> for_all body xs s = Returns s' -> P s'.
Proof.
  induction xs as [| v rest IH]; simpl; intros s s' Step Hs E.
  - now injection E as <-.
  - apply and_then_Returns in E as (a & Ea & E).
    apply (IH a s'); [ | | exact E].
    + intros b w b' Hw. apply Step. now right.
    + apply (Step s v a); auto.
Qed.

Section AnnotationProperties.

Variable cv2_rectangle : image -> Z * Z -> Z * Z -> pixel -> Z -> image.
Variable pil_draw_text :
  image -> Z * Z -> string -> string -> Z -> pixel -> outcome image.
Variable re_match_object : Type.
Variable re_match : string -> string -> option re_match_object.
Variable str_isspace : string -> bool.

(** What an iteration of the loop of [travelImage] that completes has
    done: nothing, or an annotation of entry [i], whose confidence and
    text pass the tests, with the text recorded only for a date found
    under [type] 2. *)
Lemma travel_step_Returns result minConfi type st i st' :
  Legacy.travel_step cv2_rectangle pil_draw_text re_match_object re_match
    str_isspace result minConfi type st i = Returns st' ->
  st' = st
  \/ exists c txt,
       getitem (Legacy.conf result) i = Ok c
       /\ getitem (Legacy.text result) i = Ok txt
       /\ minConfi < int c
       /\ str_isspace txt = false /\ txt <> EmptyString
       /\ (Legacy.data st' = Legacy.data st
           \/ (type = 2 /\ re_match Legacy.date_regex txt <> None
               /\ Legacy.data st' = Legacy.data st ++ [txt])).
Proof.
  unfold Legacy.travel_step. intros E.
  apply and_then_Returns in E as (c & Ec & E). apply lift_Returns in Ec.
  apply and_then_Returns in E as (txt & Et & E). apply lift_Returns in Et.
  destruct (minConfi <? int c) eqn:Hc; [| left; now injection E].
  destruct (negb (str_isspace txt) && (0 <? Z.of_nat (String.length txt)))
    eqn:Hf; [| left; now injection E].
  apply andb_true_iff in Hf as [Hs Hl]. apply negb_true_iff in Hs.
  assert (Hne : txt <> EmptyString).
  { intros ->. discriminate. }
  assert (Hlt : minConfi < int c) by lia.
  destruct type as [| [[p | p |] | [p | p |] |] | p];
    try (left; now injection E); right; exists c, txt;
    (split; [exact Ec |]); (split; [exact Et |]); (split; [exact Hlt |]);
    (split; [exact Hs |]); (split; [exact Hne |]).
  - (* type 2 *)
    unfold Legacy.findWithRegex in E.
    destruct (re_match Legacy.date_regex txt) eqn:Em.
    + apply and_then_Returns in E as ([[x y] img] & _ & E).
      apply and_then_Returns in E as (drawn & _ & E).
      injection E as <-. right.
      split; [reflexivity |]. split; [| reflexivity].
      discriminate.
    + apply and_then_Returns in E as ([[x y] img] & _ & E).
      injection E as <-. now left.
  - (* type 1 *)
    apply and_then_Returns in E as ([[x y] img] & _ & E).
    apply and_then_Returns in E as (drawn & _ & E).
    injection E as <-. now left.
Qed.

End AnnotationProperties.

(** X16.  [travelImage] records texts only under [type] 2: under every
    other [type], 1 included, the list of texts it returns is empty,
    whatever was recognized and annotated. *)
Theorem travelImage_data_only_for_type_2 :
  forall (cv2_rectangle : image -> Z * Z -> Z * Z -> pixel -> Z -> image)
         (pil_draw_text :
            image -> Z * Z -> string -> string -> Z -> pixel
            -> outcome image)
         (re_match_object : Type)
         (re_match : string -> string -> option re_match_object)
         (str_isspace : string -> bool)
         (img : image) (result : Legacy.ocr_data) (minConfi type : Z)
         (data : list string) (annotated : image),
    type <> 2 ->
    Legacy.travelImage cv2_rectangle pil_draw_text re_match_object
      re_match str_isspace img result minConfi type
    = Returns (data, annotated) ->
    data = [].
Proof.
  intros cv2_rectangle pil_draw_text re_match_object re_match str_isspace
         img result minConfi type data annotated Htype E.
  unfold Legacy.travelImage in E.
  apply and_then_Returns in E as (st & E & R). injection R as <- _.
  revert E. apply (for_all_invariant (fun s => Legacy.data s = []));
    [| reflexivity].
  intros a i a' _ Ha S.
  apply travel_step_Returns in S
    as [-> | (c & txt & _ & _ & _ & _ & _ & [D | (T & _)])];
    [exact Ha | now rewrite D | contradiction].
Qed.

(** X17.  Every text that [travelImage] returns is the text of an entry
    of the recognizer's result whose confidence, truncated to an integer,
    is above [minConfi], which is neither empty nor made of white space,
    and in which [re.match] found the date pattern. *)
Theorem travelImage_data_are_dates :
  forall (cv2_rectangle : image -> Z * Z -> Z * Z -> pixel -> Z -> image)
         (pil_draw_text :
            image -> Z * Z -> string -> string -> Z -> pixel
            -> outcome image)
         (re_match_object : Type)
         (re_match : string -> string -> option re_match_object)
         (str_isspace : string -> bool)
         (img : image) (result : Legacy.ocr_data) (minConfi type : Z)
         (data : list string) (annotated : image),
    Legacy.travelImage cv2_rectangle pil_draw_text re_match_object
      re_match str_isspace img result minConfi type
    = Returns (data, annotated) ->
    Forall
      (fun txt =>
         exists i c,
           getitem (Legacy.text result) i = Ok txt
           /\ getitem (Legacy.conf result) i = Ok c
           /\ minConfi < int c
           /\ str_isspace txt = false /\ txt <> EmptyString
           /\ re_match Legacy.date_regex txt <> None)
      data.
Proof.
  intros cv2_rectangle pil_draw_text re_match_object re_match str_isspace
         img result minConfi type data annotated E.
  unfold Legacy.travelImage in E.
  apply and_then_Returns in E as (st & E & R). injection R as <- _.
  revert E.
  apply (for_all_invariant
           (fun s => Forall _ (Legacy.data s))); [| constructor].
  intros a i a' _ Ha S.
  apply travel_step_Returns in S
    as [-> | (c & txt & Ec & Et & Hc & Hs & Hne & [D | (_ & Hm & D)])];
    [exact Ha | now rewrite D |].
  rewrite D. apply Forall_app. split; [exact Ha |].
  constructor; [| constructor]. now exists i, c.
Qed.

(** X18.  When no confidence of the recognizer's result is above
    [minConfi], [travelImage] returns no text and the image as it received
    it: nothing is drawn. *)
Theorem travelImage_nothing_above_minConfi :
  forall (cv2_rectangle : image -> Z * Z -> Z * Z -> pixel -> Z -> image)
         (pil_draw_text :
            image -> Z * Z -> string -> string -> Z -> pixel
            -> outcome image)
         (re_match_object : Type)
         (re_match : string -> string -> option re_match_object)
         (str_isspace : string -> bool)
         (img : image) (result : Legacy.ocr_data) (minConfi type : Z)
         (data : list string) (annotated : image),
    Forall (fun c => int c <= minConfi) (Legacy.conf result) ->
    Legacy.travelImage cv2_rectangle pil_draw_text re_match_object
      re_match str_isspace img result minConfi type
    = Returns (data, annotated) ->
    data = [] /\ annotated = img.
Proof.
  intros cv2_rectangle pil_draw_text re_match_object re_match str_isspace
         img result minConfi type data annotated Hconf E.
  unfold Legacy.travelImage in E.
  apply and_then_Returns in E as (st & E & R). injection R as <- <-.
  enough (H : st = {| Legacy.data := []; Legacy.imgCopy := img |})
    by now rewrite H.
  revert E.
  apply (for_all_invariant
           (fun s => s = {| Legacy.data := []; Legacy.imgCopy := img |}));
    [| reflexivity].
  intros a i a' _ Ha S.
  apply travel_step_Returns in S
    as [-> | (c & txt & Ec & _ & Hc & _)]; [exact Ha |].
  apply getitem_In in Ec. rewrite Forall_forall in Hconf.
  specialize (Hconf c Ec). lia.
Qed.

(** X16 on three words under [type] 1: two words are framed, no text is
    returned. *)
Lemma travelImage_data_only_for_type_2_witness :
  Legacy.travelImage draw_outline draw_no_text unit match_the_date
    is_one_space image4 three_words 40 1
  = Returns
      ([],
       [[(255, 100, 0); (255, 100, 0); (0, 2, 0); (0, 3, 0)];
        [(255, 100, 0); (255, 100, 0); (255, 100, 0); (1, 3, 0)];
        [(2, 0, 0); (255, 100, 0); (255, 100, 0); (2, 3, 0)];
        [(3, 0, 0); (3, 1, 0); (3, 2, 0); (3, 3, 0)]])
  /\ @nil string = [].
Proof.
  split; [reflexivity |].
  apply (travelImage_data_only_for_type_2 draw_outline draw_no_text unit
           match_the_date is_one_space image4 three_words 40 1 []
           [[(255, 100, 0); (255, 100, 0); (0, 2, 0); (0, 3, 0)];
            [(255, 100, 0); (255, 100, 0); (255, 100, 0); (1, 3, 0)];
            [(2, 0, 0); (255, 100, 0); (255, 100, 0); (2, 3, 0)];
            [(3, 0, 0); (3, 1, 0); (3, 2, 0); (3, 3, 0)]]).
  - lia.
  - reflexivity.
Defined.

(** X17 on the same words under [type] 2: the date is returned. *)
Lemma travelImage_data_are_dates_witness :
  Forall
    (fun txt =>
       exists i c,
         getitem (Legacy.text three_words) i = Ok txt
         /\ getitem (Legacy.conf three_words) i = Ok c
         /\ 40 < int c
         /\ is_one_space txt = false /\ txt <> EmptyString
         /\ match_the_date Legacy.date_regex txt <> None)
    ["01/02/2024"%string].
Proof.
  apply (travelImage_data_are_dates draw_outline draw_no_text unit
           match_the_date is_one_space image4 three_words 40 2
           ["01/02/2024"%string]
           [[(255, 100, 0); (255, 100, 0); (0, 2, 0); (0, 3, 0)];
            [(255, 100, 0); (0, 255, 0); (0, 255, 0); (1, 3, 0)];
            [(2, 0, 0); (0, 255, 0); (0, 255, 0); (2, 3, 0)];
            [(3, 0, 0); (3, 1, 0); (3, 2, 0); (3, 3, 0)]]).
  reflexivity.
Defined.

(** X18 on the same words with [minConfi] 96. *)
Lemma travelImage_nothing_above_minConfi_witness :
  @nil string = [] /\ image4 = image4.
Proof.
  apply (travelImage_nothing_above_minConfi draw_outline draw_no_text unit
           match_the_date is_one_space image4 three_words 96 1
           [] image4).
  - repeat constructor; discriminate.
  - reflexivity.
Defined.

(** * Detection on maps of the grid's shape *)

(** X19.  On a confidence map and a geometry map of the grid's shape no
    index is out of range: [generateTextBoundingBoxes], called with empty
    lists, either returns, or raises [UnboundLocalError] after a scan that
    collected nothing. *)
Theorem generateTextBoundingBoxes_well_shaped :
  forall (np_cos np_sin : Q -> Q) (overlap : box -> box -> Q)
         (overlapThresh : Q) (lines columns : Z) (scores geometry : tensor)
         (minimumTrust : Q),
    well_shaped lines columns scores geometry = true ->
    exists st,
      collect np_cos np_sin lines scores geometry columns minimumTrust
        [] [] = Ok st
      /\ ((boxs st = []
           /\ generateTextBoundingBoxes np_cos np_sin overlap overlapThresh
                lines scores geometry columns minimumTrust [] []
              = Raise UnboundLocalError)
          \/ (boxs st <> []
              /\ exists startX startY endX endY,
                   generateTextBoundingBoxes np_cos np_sin overlap
                     overlapThresh lines scores geometry columns
                     minimumTrust [] []
                   = Ok (startX, startY, endX, endY,
                         NMS.non_max_suppression overlap overlapThresh
                           (boxs st) (trust st)))).
Proof.
  intros np_cos np_sin overlap overlapThresh lines columns scores geometry
         minimumTrust W.
  destruct (collect_total np_cos np_sin lines columns scores geometry
              minimumTrust W) as (st & E).
  exists st. split; [exact E |].
  pose proof (collect_appended _ _ _ _ _ _ _ _ _ _ E)
    as (ts & bs & _ & Eb & _ & _ & Elast).
  simpl in Eb. unfold generateTextBoundingBoxes. rewrite E. cbn [bind].
  rewrite Elast, Eb.
  destruct bs as [| b bs] using rev_ind.
  - left. now split.
  - right. split; [now destruct bs |].
    rewrite rev_app_distr. simpl.
    destruct b as [[[sx sy] ex] ey]. now exists sx, sy, ex, ey.
Qed.

(** X19 on the row of two cells: with threshold 0.96 nothing is
    collected. *)
Lemma generateTextBoundingBoxes_well_shaped_witness :
  exists st,
    collect cos_poly sin_poly 1 [[[[19 # 20; 1 # 2]]]]%Q
      [[[[2; 1]]; [[3; 1]]; [[4; 1]]; [[1; 1]]; [[0; 0]]]]%Q 2 (24 # 25)
      [] [] = Ok st
    /\ ((boxs st = []
         /\ generateTextBoundingBoxes cos_poly sin_poly
              overlap_of_candidate (3 # 10) 1 [[[[19 # 20; 1 # 2]]]]%Q
              [[[[2; 1]]; [[3; 1]]; [[4; 1]]; [[1; 1]]; [[0; 0]]]]%Q
              2 (24 # 25) [] []
            = Raise UnboundLocalError)
        \/ (boxs st <> []
            /\ exists startX startY endX endY,
                 generateTextBoundingBoxes cos_poly sin_poly
                   overlap_of_candidate (3 # 10) 1
                   [[[[19 # 20; 1 # 2]]]]%Q
                   [[[[2; 1]]; [[3; 1]]; [[4; 1]]; [[1; 1]]; [[0; 0]]]]%Q
                   2 (24 # 25) [] []
                 = Ok (startX, startY, endX, endY,
                       NMS.non_max_suppression overlap_of_candidate
                         (3 # 10) (boxs st) (trust st)))).
Proof.
  apply (generateTextBoundingBoxes_well_shaped cos_poly sin_poly
           overlap_of_candidate (3 # 10) 1 2 [[[[19 # 20; 1 # 2]]]]%Q
           [[[[2; 1]]; [[3; 1]]; [[4; 1]]; [[1; 1]]; [[0; 0]]]]%Q
           (24 # 25)).
  reflexivity.
Defined.
